(** * Vinyl collection front end: a shallow embedding of [api.js], [ui.js]
      and [main.js], and the properties of its specification.

    The development follows the layout of the application:
    - [JsString]: JavaScript strings as sequences of UTF-16 code units, with
      the few built-in string operations the application calls;
    - [Model]: the records exchanged with the REST service;
    - [Api]: the gateway ([fetchAPI] and the operations built on it);
    - [Ui]: the renderer, acting on an explicit DOM state;
    - [Main]: the coordinator, as programs that interleave DOM updates with
      gateway calls.
    Animations (GSAP) and console logging have no effect on the state
    modelled here and are left out. *)

From Stdlib Require Import List ZArith NArith Bool Lia.
From Stdlib Require Import Strings.String Strings.Ascii Numbers.DecimalString.
From Stdlib Require Import Numbers.DecimalPos.
Import ListNotations.

Set Implicit Arguments.

(* ================================================================== *)
(** * JavaScript strings *)
(* ================================================================== *)

Module JsString.

Local Open Scope N_scope.

(** A JavaScript string is a sequence of UTF-16 code units. *)
Definition jsstring : Type := list N.

(** ** Literals

    Source literals are written as Rocq strings (UTF-8 bytes) and decoded to
    code units by [js]. *)

Definition utf16_of_codepoint (c : N) : list N :=
  if c <? 0x10000 then [c]
  else let c' := c - 0x10000 in [0xD800 + c' / 0x400; 0xDC00 + c' mod 0x400].

(** Continuation byte payload. *)
Definition cont (b : N) : N := b mod 0x40.

Fixpoint utf8_decode (bs : list N) : list N :=
  match bs with
  | [] => []
  | b0 :: r0 =>
    if b0 <? 0x80 then b0 :: utf8_decode r0
    else if b0 <? 0xE0 then
      match r0 with
      | b1 :: r1 => ((b0 mod 0x20) * 0x40 + cont b1) :: utf8_decode r1
      | [] => [0xFFFD]
      end
    else if b0 <? 0xF0 then
      match r0 with
      | b1 :: b2 :: r2 =>
          ((b0 mod 0x10) * 0x1000 + cont b1 * 0x40 + cont b2) :: utf8_decode r2
      | _ => [0xFFFD]
      end
    else
      match r0 with
      | b1 :: b2 :: b3 :: r3 =>
          ((b0 mod 0x08) * 0x40000 + cont b1 * 0x1000 + cont b2 * 0x40 + cont b3)
            :: utf8_decode r3
      | _ => [0xFFFD]
      end
  end.

Definition js (s : string) : jsstring :=
  flat_map utf16_of_codepoint
           (utf8_decode (List.map N_of_ascii (list_ascii_of_string s))).

(** The double quote, and template chunks.  A chunk of a template literal is
    written with a backquote wherever the source has a double quote: [tpl]
    puts the double quotes back. *)
Definition dquote : N := 34.
Definition backquote : N := 96.

Definition tpl (s : string) : jsstring :=
  List.map (fun c => if c =? backquote then dquote else c) (js s).

(** ** Equality *)

Fixpoint eqb (s t : jsstring) : bool :=
  match s, t with
  | [], [] => true
  | c :: s', d :: t' => (c =? d) && eqb s' t'
  | _, _ => false
  end.

(** Truthiness of a string: only the empty string is falsy. *)
Definition truthy (s : jsstring) : bool :=
  match s with [] => false | _ :: _ => true end.

(** [a || b] on strings. *)
Definition or_else (a b : jsstring) : jsstring :=
  if truthy a then a else b.

(** [a || b] where [a] may be [null]. *)
Definition opt_or_else (a : option jsstring) (b : jsstring) : jsstring :=
  match a with
  | Some s => or_else s b
  | None => b
  end.

(** ** [String.prototype] operations used by the application *)

Fixpoint startsWith (s prefix : jsstring) : bool :=
  match prefix, s with
  | [], _ => true
  | p :: prefix', c :: s' => (c =? p) && startsWith s' prefix'
  | _ :: _, [] => false
  end.

Fixpoint includes (s needle : jsstring) : bool :=
  startsWith s needle ||
  match s with
  | [] => false
  | _ :: s' => includes s' needle
  end.

(** [s.substring(0, n)] for a non-negative integer [n]. *)
Definition substring0 (s : jsstring) (n : nat) : jsstring := firstn n s.

(** [s.replace(pattern, replacement)] with a string pattern: only the first
    occurrence is replaced. *)
Fixpoint replace (s pattern replacement : jsstring) : jsstring :=
  if startsWith s pattern then replacement ++ skipn (List.length pattern) s
  else match s with
       | [] => []
       | c :: s' => c :: replace s' pattern replacement
       end.

(** [s.repeat(n)]. *)
Fixpoint repeat (s : jsstring) (n : nat) : jsstring :=
  match n with
  | O => []
  | S n' => s ++ repeat s n'
  end.

(** White space and line terminators, as [trim] and [parseInt] strip them. *)
Definition is_space (c : N) : bool :=
  (c =? 9) || (c =? 10) || (c =? 11) || (c =? 12) || (c =? 13) || (c =? 32)
  || (c =? 0xA0) || (c =? 0x1680) || ((0x2000 <=? c) && (c <=? 0x200A))
  || (c =? 0x2028) || (c =? 0x2029) || (c =? 0x202F) || (c =? 0x205F)
  || (c =? 0x3000) || (c =? 0xFEFF).

Fixpoint trimStart (s : jsstring) : jsstring :=
  match s with
  | c :: s' => if is_space c then trimStart s' else s
  | [] => []
  end.

Definition trimEnd (s : jsstring) : jsstring := rev (trimStart (rev s)).

Definition trim (s : jsstring) : jsstring := trimEnd (trimStart s).

(** ** [encodeURIComponent] *)

Definition is_alnum (c : N) : bool :=
  ((48 <=? c) && (c <=? 57)) || ((65 <=? c) && (c <=? 90))
  || ((97 <=? c) && (c <=? 122)).

(** The characters [encodeURIComponent] leaves alone: letters, digits and
    [- _ . ! ~ * ' ( )]. *)
Definition uri_unreserved (c : N) : bool :=
  is_alnum c || (c =? 45) || (c =? 95) || (c =? 46) || (c =? 33) || (c =? 126)
  || (c =? 42) || (c =? 39) || (c =? 40) || (c =? 41).

Definition hex_digit (d : N) : N := if d <? 10 then 48 + d else 55 + d.

Definition percent (byte : N) : jsstring :=
  [37; hex_digit (byte / 16); hex_digit (byte mod 16)].

Definition utf8_encode (cp : N) : list N :=
  if cp <? 0x80 then [cp]
  else if cp <? 0x800 then [0xC0 + cp / 0x40; 0x80 + cp mod 0x40]
  else if cp <? 0x10000 then
    [0xE0 + cp / 0x1000; 0x80 + (cp / 0x40) mod 0x40; 0x80 + cp mod 0x40]
  else
    [0xF0 + cp / 0x40000; 0x80 + (cp / 0x1000) mod 0x40;
     0x80 + (cp / 0x40) mod 0x40; 0x80 + cp mod 0x40].

Definition is_high_surrogate (c : N) : bool := (0xD800 <=? c) && (c <=? 0xDBFF).
Definition is_low_surrogate (c : N) : bool := (0xDC00 <=? c) && (c <=? 0xDFFF).

Definition percent_codepoint (cp : N) : jsstring :=
  flat_map percent (utf8_encode cp).

(** [None] stands for the [URIError] thrown on a lone surrogate. *)
Fixpoint encodeURIComponent (s : jsstring) : option jsstring :=
  match s with
  | [] => Some []
  | c :: r =>
    if uri_unreserved c then option_map (cons c) (encodeURIComponent r)
    else if is_low_surrogate c then None
    else if is_high_surrogate c then
      match r with
      | d :: r' =>
        if is_low_surrogate d then
          option_map
            (app (percent_codepoint
                    (0x10000 + (c - 0xD800) * 0x400 + (d - 0xDC00))))
            (encodeURIComponent r')
        else None
      | [] => None
      end
    else option_map (app (percent_codepoint c)) (encodeURIComponent r)
  end.

(** ** Numbers read from text

    [parseInt] yields an integer or [NaN].  The integer is kept exact:
    JavaScript rounds it to the nearest double, which changes nothing below
    2^53. *)
Inductive number : Set :=
| NaN
| Int (z : Z).

(** Truthiness of a number: [NaN] and zero are falsy. *)
Definition number_truthy (n : number) : bool :=
  match n with
  | NaN => false
  | Int z => negb (z =? 0)%Z
  end.

(** [a < b], [a > b] and [a === b]: every comparison with [NaN] is false. *)
Definition number_lt (a b : number) : bool :=
  match a, b with
  | Int x, Int y => (x <? y)%Z
  | _, _ => false
  end.

Definition number_gt (a b : number) : bool := number_lt b a.

Definition number_strict_eq (a b : number) : bool :=
  match a, b with
  | Int x, Int y => (x =? y)%Z
  | _, _ => false
  end.

(** [`${n}`]: decimal digits, with a leading minus sign below zero.
    JavaScript switches to exponent notation from 10^21 on, which no
    identifier, year, count or status code reaches. *)
Definition numberToString (n : number) : jsstring :=
  match n with
  | NaN => js "NaN"
  | Int z => js (NilEmpty.string_of_int (Z.to_int z))
  end.

(** Value of a code unit as a digit of the given radix. *)
Definition digit_value (radix c : N) : option N :=
  let d := if (48 <=? c) && (c <=? 57) then Some (c - 48)
           else if (97 <=? c) && (c <=? 122) then Some (c - 87)
           else if (65 <=? c) && (c <=? 90) then Some (c - 55)
           else None in
  match d with
  | Some v => if v <? radix then Some v else None
  | None => None
  end.

(** Value of the longest prefix of digits; [acc] is [None] until a digit has
    been read. *)
Fixpoint digits_prefix (radix : N) (s : jsstring) (acc : option N) : option N :=
  match s with
  | c :: s' =>
    match digit_value radix c with
    | Some v =>
      digits_prefix radix s'
                    (Some (radix * match acc with Some a => a | None => 0 end + v))
    | None => acc
    end
  | [] => acc
  end.

(** [parseInt(s)] with no radix: leading white space is skipped, then an
    optional sign, then an optional [0x] or [0X] (radix 16, else 10), then the
    longest run of digits; [NaN] when that run is empty. *)
Definition parseInt (s : jsstring) : number :=
  let s1 := trimStart s in
  let '(sign, s2) :=
    match s1 with
    | c :: r => if c =? 45 then ((-1)%Z, r)
                else if c =? 43 then (1%Z, r) else (1%Z, s1)
    | [] => (1%Z, s1)
    end in
  let '(radix, s3) :=
    match s2 with
    | c0 :: c1 :: r =>
      if (c0 =? 48) && ((c1 =? 120) || (c1 =? 88)) then (16, r) else (10, s2)
    | _ => (10, s2)
    end in
  match digits_prefix radix s3 None with
  | Some n => Int (sign * Z.of_N n)
  | None => NaN
  end.

End JsString.

Import JsString.

(* ================================================================== *)
(** * Data model *)
(* ================================================================== *)

Module Model.

(** A JavaScript [Error]: its kind ([name]) and its message. *)
Record Error : Type := mkError {
  name : jsstring;
  message : jsstring
}.

(** [new Error(msg)]. *)
Definition newError (msg : jsstring) : Error :=
  {| name := js "Error"; message := msg |}.

(** The [URIError] of [encodeURIComponent] (message as V8 words it). *)
Definition uriError : Error :=
  {| name := js "URIError"; message := js "URI malformed" |}.

(** The [TypeError] of a property read on [null] (message as V8 words it). *)
Definition nullReadError (property : jsstring) : Error :=
  {| name := js "TypeError";
     message := js "Cannot read properties of null (reading '"
                ++ property ++ js "')" |}.

(** A settled promise. *)
Inductive result (A : Type) : Type :=
| Resolved (a : A)
| Rejected (e : Error).
Arguments Rejected {A} e.

(** The completion of a synchronous function: a value, or an exception. *)
Inductive completion (A : Type) : Type :=
| Normal (a : A)
| Throw (e : Error).
Arguments Throw {A} e.

(** A record of the collection, as the service returns it.  [selo] and [capa]
    may be [null]. *)
Record Vinil : Type := mkVinil {
  id : Z;
  artista : jsstring;
  album : jsstring;
  cor_prensagem : jsstring;
  ano : Z;
  midia : jsstring;
  selo : option jsstring;
  capa : option jsstring
}.

(** The object the form collects ([vinilData]); [capa] is present only when an
    image is attached. *)
Record VinilData : Type := mkVinilData {
  data_artista : jsstring;
  data_album : jsstring;
  data_cor_prensagem : jsstring;
  data_ano : number;
  data_midia : jsstring;
  data_selo : option jsstring;
  data_capa : option jsstring
}.

(** One line of a statistics group: a label and a count. *)
Record Contagem : Type := mkContagem {
  rotulo : jsstring;
  quantidade : Z
}.

(** The statistics object.  Each property may be missing; [stats_json] is the
    text [JSON.stringify(stats, null, 2)] gives for the object. *)
Record Stats : Type := mkStats {
  total_vinis : option Z;
  por_cor : option (list Contagem);
  por_artista : option (list Contagem);
  stats_json : jsstring
}.

(** The per-field difference map of a comparison. *)
Record Diferencas : Type := mkDiferencas {
  dif_artista : bool;
  dif_album : bool;
  dif_cor_prensagem : bool;
  dif_ano : bool;
  dif_selo : bool;
  dif_midia : bool
}.

Record Comparacao : Type := mkComparacao {
  vinil_a : Vinil;
  vinil_b : Vinil;
  diferencas : Diferencas
}.

(** [a !== b] on the field types of a record. *)
Definition string_neq (a b : jsstring) : bool := negb (JsString.eqb a b).

Definition number_neq (a b : Z) : bool := negb (a =? b)%Z.

Definition nullable_neq (a b : option jsstring) : bool :=
  match a, b with
  | None, None => false
  | Some x, Some y => string_neq x y
  | _, _ => true
  end.

End Model.

Import Model.

(* ================================================================== *)
(** * Asynchronous programs *)
(* ================================================================== *)

(** A function of the application that awaits the gateway is a tree: it
    either returns, or issues one request and continues with the way the
    request settles.  Promise rejections are values ([Rejected]); [try] and
    [catch] are case analyses on them. *)
Module Async.

Inductive Method : Set := GET | POST | PUT | DELETE.

(** What [fetchAPI] is called with: the endpoint, the method and the object
    serialised into the body. *)
Record Request : Type := mkRequest {
  endpoint : jsstring;
  method : Method;
  body : option VinilData
}.

(** The shapes of the payloads of the service, one per kind of endpoint. *)
Inductive ty : Set := TVinis | TVinil | TStats | TEmpty.

Definition payload (t : ty) : Type :=
  match t with
  | TVinis => list Vinil
  | TVinil => Vinil
  | TStats => Stats
  | TEmpty => unit
  end.

Inductive prog (A : Type) : Type :=
| Ret (a : A)
| Call (t : ty) (req : Request) (k : result (payload t) -> prog A).
Arguments Ret {A} a.
Arguments Call {A} t req k.

Fixpoint bind {A B : Type} (p : prog A) (f : A -> prog B) : prog B :=
  match p with
  | Ret a => f a
  | Call t req k => Call t req (fun r => bind (k r) f)
  end.

(** [await] inside a [try] block whose [catch] is the caller's: a rejection
    ends the function with that rejection. *)
Definition bind_resolved {A B : Type}
           (p : prog (result A)) (f : A -> prog (result B)) : prog (result B) :=
  bind p (fun r => match r with
                   | Resolved a => f a
                   | Rejected e => Ret (Rejected e)
                   end).

(** The service, seen from the client: how each request settles.  It is
    memoryless: within a run, a request settles the same way each time it is
    issued. *)
Definition Server : Type := forall t : ty, Request -> result (payload t).

(** Value returned against a given service. *)
Fixpoint run {A : Type} (server : Server) (p : prog A) : A :=
  match p with
  | Ret a => a
  | Call t req k => run server (k (server t req))
  end.

(** Requests issued against a given service, in order. *)
Fixpoint trace {A : Type} (server : Server) (p : prog A) : list Request :=
  match p with
  | Ret _ => []
  | Call t req k => req :: trace server (k (server t req))
  end.

End Async.

Import Async.

Declare Scope prog_scope.
Delimit Scope prog_scope with prog.
Notation "x <- p ;; q" := (bind p (fun x => q))
  (at level 61, p at next level, right associativity) : prog_scope.
Notation "'await' x <- p ;; q" := (bind_resolved p (fun x => q))
  (at level 61, x name, p at next level, right associativity) : prog_scope.

(* ================================================================== *)
(** * api.js: the gateway *)
(* ================================================================== *)

Module Api.

Local Open Scope prog_scope.

Definition API_BASE_URL : jsstring := js "http://localhost:5000".
Definition API_PREFIX : jsstring := js "/api/v1".

(** ** [fetchAPI] *)

(** A parsed JSON body, as far as [fetchAPI] and its callers look into it:
    [null]; the payload the endpoint promises; or any other value, of which
    only the [message] property is read ([JObject None] when it has none, as
    for the empty object). *)
Inductive Json (B : Type) : Type :=
| JNull
| JObject (message : option jsstring)
| JPayload (b : B).
Arguments JNull {B}.
Arguments JObject {B} message.

(** The [Response] of [fetch]: [json] is how [response.json()] settles. *)
Record Response (B : Type) : Type := mkResponse {
  ok : bool;
  status : Z;
  json : result (Json B)
}.

(** How [fetch(url, ...)] settles: it rejects when the transport fails. *)
Inductive Fetched (B : Type) : Type :=
| TransportFailure (e : Error)
| Responded (response : Response B).
Arguments TransportFailure {B} e.

Definition url (endpoint : jsstring) : jsstring :=
  API_BASE_URL ++ API_PREFIX ++ endpoint.

(** [errorData.message]; reading it on [null] throws. *)
Definition message_of {B : Type} (errorData : Json B) : Error + option jsstring :=
  match errorData with
  | JNull => inl (nullReadError (js "message"))
  | JObject m => inr m
  | JPayload _ => inr None
  end.

(** The body of [fetchAPI] once [fetch] has settled.  The [catch] clause logs
    and rethrows, so every failure leaves as a rejection. *)
Definition fetchAPI {B : Type} (fetched : Fetched B) : result (Json B) :=
  match fetched with
  | TransportFailure error => Rejected error
  | Responded response =>
    if negb (ok response) then
      let errorData :=
        match json response with
        | Resolved j => j
        | Rejected _ => JObject None
        end in
      match message_of errorData with
      | inl typeError => Rejected typeError
      | inr m =>
        Rejected (newError
                    (opt_or_else m (js "Erro HTTP: "
                                    ++ numberToString (Int (status response)))))
      end
    else if (status response =? 204)%Z then Resolved (JObject None)
    else json response
  end.

(** ** Operations

    Each operation is one call of [fetchAPI]; the coordinator is modelled
    against a service that answers a successful call with the payload of the
    endpoint. *)
Definition request (t : ty) (endpoint : jsstring) (method : Method)
           (body : option VinilData) : prog (result (payload t)) :=
  Call t (mkRequest endpoint method body) (fun r => Ret r).

Definition getVinis : prog (result (list Vinil)) :=
  request TVinis (js "/vinis/") GET None.

Definition getVinilById (id : number) : prog (result Vinil) :=
  request TVinil (js "/vinis/" ++ numberToString id) GET None.

(** [encodeURIComponent] throws on a lone surrogate: the promise of the
    operation is then rejected without a request. *)
Definition buscarPorArtista (artista : jsstring) : prog (result (list Vinil)) :=
  match encodeURIComponent artista with
  | Some encodedArtista =>
      request TVinis (js "/vinis/search?artista=" ++ encodedArtista) GET None
  | None => Ret (Rejected uriError)
  end.

Definition buscarPorAlbum (album : jsstring) : prog (result (list Vinil)) :=
  match encodeURIComponent album with
  | Some encodedAlbum =>
      request TVinis (js "/vinis/search?album=" ++ encodedAlbum) GET None
  | None => Ret (Rejected uriError)
  end.

(** A JavaScript [Map] keyed by identifiers: entries in insertion order.
    [set] on a key already present keeps the position of the entry and
    replaces its value. *)
Fixpoint map_set {V : Type} (m : list (Z * V)) (k : Z) (v : V) : list (Z * V) :=
  match m with
  | [] => [(k, v)]
  | (k', v') :: m' =>
    if (k' =? k)%Z then (k', v) :: m' else (k', v') :: map_set m' k v
  end.

(** [new Map(entries)]. *)
Definition new_Map {V : Type} (entries : list (Z * V)) : list (Z * V) :=
  fold_left (fun m e => map_set m (fst e) (snd e)) entries [].

(** [Array.from(m.values())]. *)
Definition map_values {V : Type} (m : list (Z * V)) : list V := List.map snd m.

Definition vinisUnicos (todosResultados : list Vinil) : list Vinil :=
  map_values (new_Map (List.map (fun v => (id v, v)) todosResultados)).

(** [promise.catch(() => [])]. *)
Definition catch_empty (r : result (list Vinil)) : list Vinil :=
  match r with
  | Resolved l => l
  | Rejected _ => []
  end.

(** Both sub-queries are started before either settles, each with its own
    [catch]; [Promise.all] then yields the two lists in this order.  With
    both promises made unable to reject and lists of records in hand, the
    outer [catch] is never entered. *)
Definition buscarVinis (termo : jsstring) : prog (list Vinil) :=
  ra <- buscarPorArtista termo ;;
  rb <- buscarPorAlbum termo ;;
  let resultadosArtista := catch_empty ra in
  let resultadosAlbum := catch_empty rb in
  let todosResultados := resultadosArtista ++ resultadosAlbum in
  Ret (vinisUnicos todosResultados).

Definition getStatsCores : prog (result Stats) :=
  request TStats (js "/stats/") GET None.

Definition adicionarVinil (vinilData : VinilData) : prog (result Vinil) :=
  request TVinil (js "/vinis/") POST (Some vinilData).

(** The identifier comes from [form.dataset.editId], a string. *)
Definition atualizarVinil (id : jsstring) (vinilData : VinilData)
  : prog (result Vinil) :=
  request TVinil (js "/vinis/" ++ id) PUT (Some vinilData).

Definition deletarVinil (id : number) : prog (result unit) :=
  request TEmpty (js "/vinis/" ++ numberToString id) DELETE None.

(** The difference map built by [compararPrensagens]. *)
Definition diferencasEntre (vinilA vinilB : Vinil) : Diferencas :=
  {| dif_artista := string_neq (artista vinilA) (artista vinilB);
     dif_album := string_neq (album vinilA) (album vinilB);
     dif_cor_prensagem :=
       string_neq (cor_prensagem vinilA) (cor_prensagem vinilB);
     dif_ano := number_neq (ano vinilA) (ano vinilB);
     dif_selo := nullable_neq (selo vinilA) (selo vinilB);
     dif_midia := string_neq (midia vinilA) (midia vinilB) |}.

Definition compararPrensagens (idA idB : number)
  : prog (result Comparacao) :=
  await vinilA <- getVinilById idA ;;
  await vinilB <- getVinilById idB ;;
  Ret (Resolved {| vinil_a := vinilA;
                   vinil_b := vinilB;
                   diferencas := diferencasEntre vinilA vinilB |}).

End Api.

(* ================================================================== *)
(** * ui.js: the renderer *)
(* ================================================================== *)

Module Ui.

Local Open Scope prog_scope.

(** ** The document *)

(** [element.style.display]; [DisplayUnset] is an element whose inline style
    has not been written. *)
Inductive Display : Set :=
| DisplayUnset
| DisplayNone
| DisplayFlex
| DisplayBlock.

(** A card of the grid: the [div] built by [createVinilCard].  [abre_detalhes]
    is the identifier its click listener passes to [showVinilDetailsModal]. *)
Record Card : Type := mkCard {
  className : jsstring;
  vinilId : jsstring;
  innerHTML : jsstring;
  abre_detalhes : Z
}.

Inductive NotificationType : Set := Success | Error_ | Info.

Definition type_name (type : NotificationType) : jsstring :=
  match type with
  | Success => js "success"
  | Error_ => js "error"
  | Info => js "info"
  end.

(** The notification element appended to the body, as it is when
    [showNotification] returns (the timers that slide it in and remove it
    after four seconds are not part of this state). *)
Record Notification : Type := mkNotification {
  notification_class : jsstring;
  notification_html : jsstring
}.

Inductive Modal : Set := ModalForm | ModalDetalhes | ModalStats | ModalComparar.

(** Which modals carry the class [active]. *)
Record Modals : Type := mkModals {
  modal_form : bool;
  modal_detalhes : bool;
  modal_stats : bool;
  modal_comparar : bool
}.

Definition set_active (m : Modal) (b : bool) (ms : Modals) : Modals :=
  match m with
  | ModalForm => mkModals b (modal_detalhes ms) (modal_stats ms) (modal_comparar ms)
  | ModalDetalhes => mkModals (modal_form ms) b (modal_stats ms) (modal_comparar ms)
  | ModalStats => mkModals (modal_form ms) (modal_detalhes ms) b (modal_comparar ms)
  | ModalComparar => mkModals (modal_form ms) (modal_detalhes ms) (modal_stats ms) b
  end.

(** The four counters at the top of the page ([textContent]). *)
Record MiniStats : Type := mkMiniStats {
  total_vinis_text : jsstring;
  total_raridades_text : jsstring;
  total_artistas_text : jsstring;
  ano_mais_antigo_text : jsstring
}.

(** The elements the renderer reads and writes.  [comparacao_output] holds
    the object whose [JSON.stringify(resultado, null, 2)] text is shown. *)
Record Dom : Type := mkDom {
  vinis_grid : list Card;
  loading : Display;
  no_results : Display;
  mini_stats : MiniStats;
  stats_container : jsstring;
  detalhes_content : jsstring;
  vinil_id_a : jsstring;
  vinil_id_b : jsstring;
  comparacao_resultado : Display;
  comparacao_output : option Comparacao;
  notification : option Notification;
  modals : Modals
}.

Definition with_vinis_grid (v : list Card) (d : Dom) : Dom :=
  mkDom v (loading d) (no_results d) (mini_stats d) (stats_container d)
        (detalhes_content d) (vinil_id_a d) (vinil_id_b d)
        (comparacao_resultado d) (comparacao_output d) (notification d)
        (modals d).

Definition with_loading (v : Display) (d : Dom) : Dom :=
  mkDom (vinis_grid d) v (no_results d) (mini_stats d) (stats_container d)
        (detalhes_content d) (vinil_id_a d) (vinil_id_b d)
        (comparacao_resultado d) (comparacao_output d) (notification d)
        (modals d).

Definition with_no_results (v : Display) (d : Dom) : Dom :=
  mkDom (vinis_grid d) (loading d) v (mini_stats d) (stats_container d)
        (detalhes_content d) (vinil_id_a d) (vinil_id_b d)
        (comparacao_resultado d) (comparacao_output d) (notification d)
        (modals d).

Definition with_mini_stats (v : MiniStats) (d : Dom) : Dom :=
  mkDom (vinis_grid d) (loading d) (no_results d) v (stats_container d)
        (detalhes_content d) (vinil_id_a d) (vinil_id_b d)
        (comparacao_resultado d) (comparacao_output d) (notification d)
        (modals d).

Definition with_stats_container (v : jsstring) (d : Dom) : Dom :=
  mkDom (vinis_grid d) (loading d) (no_results d) (mini_stats d) v
        (detalhes_content d) (vinil_id_a d) (vinil_id_b d)
        (comparacao_resultado d) (comparacao_output d) (notification d)
        (modals d).

Definition with_detalhes_content (v : jsstring) (d : Dom) : Dom :=
  mkDom (vinis_grid d) (loading d) (no_results d) (mini_stats d)
        (stats_container d) v (vinil_id_a d) (vinil_id_b d)
        (comparacao_resultado d) (comparacao_output d) (notification d)
        (modals d).

Definition with_vinil_ids (a b : jsstring) (d : Dom) : Dom :=
  mkDom (vinis_grid d) (loading d) (no_results d) (mini_stats d)
        (stats_container d) (detalhes_content d) a b
        (comparacao_resultado d) (comparacao_output d) (notification d)
        (modals d).

Definition with_comparacao (v : Display) (o : option Comparacao) (d : Dom) : Dom :=
  mkDom (vinis_grid d) (loading d) (no_results d) (mini_stats d)
        (stats_container d) (detalhes_content d) (vinil_id_a d) (vinil_id_b d)
        v o (notification d) (modals d).

Definition with_notification (v : option Notification) (d : Dom) : Dom :=
  mkDom (vinis_grid d) (loading d) (no_results d) (mini_stats d)
        (stats_container d) (detalhes_content d) (vinil_id_a d) (vinil_id_b d)
        (comparacao_resultado d) (comparacao_output d) v (modals d).

Definition with_modals (v : Modals) (d : Dom) : Dom :=
  mkDom (vinis_grid d) (loading d) (no_results d) (mini_stats d)
        (stats_container d) (detalhes_content d) (vinil_id_a d) (vinil_id_b d)
        (comparacao_resultado d) (comparacao_output d) (notification d) v.

(** ** Escaping *)

(** What [div.innerHTML] gives back for one code unit stored through
    [div.textContent]: the serialisation of a text node replaces the
    ampersand, the no-break space and the two angle brackets, and nothing
    else (quotes are kept). *)
Definition escape_unit (c : N) : jsstring :=
  if (c =? 38)%N then js "&amp;"
  else if (c =? 160)%N then js "&nbsp;"
  else if (c =? 60)%N then js "&lt;"
  else if (c =? 62)%N then js "&gt;"
  else [c].

Definition escapeHTML (text : jsstring) : jsstring :=
  if negb (truthy text) then []
  else flat_map escape_unit text.

(** ** Cards and detail panel *)

(** The own properties of [corMap]. *)
Definition corMap (cor : jsstring) : option jsstring :=
  if JsString.eqb cor (js "Preto") then Some (js "#1a1a1a")
  else if JsString.eqb cor (js "Colorido")
  then Some (js "linear-gradient(135deg, #e91e63, #9c27b0)")
  else if JsString.eqb cor (js "Transparente") then Some (js "#2196f3")
  else if JsString.eqb cor (js "Roxo") then Some (js "#9c27b0")
  else None.

(** The properties an object literal inherits from [Object.prototype]: a
    lookup by one of these names yields a function or an object, never a
    string. *)
Definition object_prototype_keys : list jsstring :=
  List.map js
    ["constructor"; "__defineGetter__"; "__defineSetter__"; "hasOwnProperty";
     "__lookupGetter__"; "__lookupSetter__"; "isPrototypeOf";
     "propertyIsEnumerable"; "toString"; "valueOf"; "__proto__";
     "toLocaleString"]%string.

(** The [TypeError] of a call to a property that is not a function (message
    as V8 words it). *)
Definition notAFunction (what : jsstring) : Error :=
  {| name := js "TypeError"; message := what ++ js " is not a function" |}.

(** [bgStyle = corMap[cor] || '#333333'] followed by
    [bgStyle.includes('gradient')], which throws when the lookup found an
    inherited property. *)
Definition bgStyleOf (cor : jsstring) : completion (jsstring * bool) :=
  match corMap cor with
  | Some bgStyle => Normal (bgStyle, includes bgStyle (js "gradient"))
  | None =>
    if existsb (JsString.eqb cor) object_prototype_keys
    then Throw (notAFunction (js "bgStyle.includes"))
    else Normal (js "#333333", includes (js "#333333") (js "gradient"))
  end.

(** The own properties of [raridadeMap]; it is read only after [bgStyleOf]
    has excluded the inherited names. *)
Definition raridadeMap (cor : jsstring) : option nat :=
  if JsString.eqb cor (js "Preto") then Some 1
  else if JsString.eqb cor (js "Transparente") then Some 2
  else if JsString.eqb cor (js "Roxo") then Some 3
  else if JsString.eqb cor (js "Colorido") then Some 4
  else None.

Section Renderer.

(** [String.prototype.toLowerCase], whose Unicode tables are not reproduced
    here. *)
Variable toLowerCase : jsstring -> jsstring.

Definition createVinilCard (vinil : Vinil) : completion Card :=
  match bgStyleOf (cor_prensagem vinil) with
  | Throw typeError => Throw typeError
  | Normal (bgStyle, isGradient) =>
  let imgUrl : completion jsstring :=
    if match capa vinil with Some c => truthy c | None => false end then
      let c := match capa vinil with Some c => c | None => [] end in
      if startsWith c (js "/uploads")
      then Normal (js "http://localhost:5000" ++ c)
      else Normal c
    else
      match encodeURIComponent (substring0 (album vinil) 15) with
      | None => Throw uriError
      | Some encodedAlbum =>
        Normal
          (js "data:image/svg+xml,%3Csvg width='400' height='400' xmlns='http://www.w3.org/2000/svg'%3E%3Cdefs%3E"
       ++ (if isGradient then js "%3ClinearGradient id='grad' x1='0%25' y1='0%25' x2='100%25' y2='100%25'%3E%3Cstop offset='0%25' style='stop-color:%23e91e63'/%3E%3Cstop offset='100%25' style='stop-color:%239c27b0'/%3E%3C/linearGradient%3E" else [])
       ++ js "%3C/defs%3E%3Crect width='400' height='400' fill='"
       ++ (if isGradient then js "url(%23grad)" else bgStyle)
       ++ js "'/%3E%3Ccircle cx='200' cy='200' r='150' fill='none' stroke='rgba(255,255,255,0.1)' stroke-width='2'/%3E%3Ccircle cx='200' cy='200' r='100' fill='none' stroke='rgba(255,255,255,0.1)' stroke-width='2'/%3E%3Ccircle cx='200' cy='200' r='20' fill='rgba(255,255,255,0.2)'/%3E%3Ctext x='200' y='220' font-family='Arial' font-size='16' fill='rgba(255,255,255,0.6)' text-anchor='middle'%3E"
       ++ encodedAlbum
       ++ js "%3C/text%3E%3C/svg%3E")
      end in
  match imgUrl with
  | Throw e => Throw e
  | Normal imgUrl =>
  let corClass :=
    JsString.replace (toLowerCase (cor_prensagem vinil)) (js " ") (js "-") in
  Normal {|
    className := js "vinil-card";
    vinilId := numberToString (Int (id vinil));
    innerHTML :=
    tpl "
        <div class=`vinil-card-image-wrapper`>
            <img src=`"
    ++ imgUrl
    ++ tpl "` alt=`"
    ++ album vinil
    ++ tpl "` class=`vinil-card-image`>
            <div class=`vinil-card-badges`>
                <span class=`badge badge-"
    ++ corClass
    ++ tpl "`>"
    ++ escapeHTML (cor_prensagem vinil)
    ++ js "</span>
                "
    ++ (if JsString.eqb (midia vinil) (js "LP")
        then tpl "<span class=`badge badge-lp`>LP</span>" else [])
    ++ tpl "
            </div>
        </div>
        <div class=`vinil-card-content`>
            <h3 class=`vinil-card-title`>"
    ++ escapeHTML (album vinil)
    ++ tpl "</h3>
            <p class=`vinil-card-artist`>"
    ++ escapeHTML (artista vinil)
    ++ tpl "</p>
            <div class=`vinil-card-details`>
                <div class=`vinil-detail-item`>📅 "
    ++ numberToString (Int (ano vinil))
    ++ tpl "</div>
                <div class=`vinil-detail-item`>💿 "
    ++ escapeHTML (opt_or_else (selo vinil) (js "N/A"))
    ++ js "</div>
            </div>
        </div>
    ";
    abre_detalhes := id vinil |}
  end
  end.

Definition createVinilDetailsHTML (vinil : Vinil) : completion jsstring :=
  match bgStyleOf (cor_prensagem vinil) with
  | Throw typeError => Throw typeError
  | Normal (bgStyle, isGradient) =>
  match encodeURIComponent (substring0 (album vinil) 20) with
  | None => Throw uriError
  | Some encodedAlbum =>
  let svgPlaceholder :=
       js "data:image/svg+xml,%3Csvg width='600' height='600' xmlns='http://www.w3.org/2000/svg'%3E%3Cdefs%3E"
       ++ (if isGradient then js "%3ClinearGradient id='grad' x1='0%25' y1='0%25' x2='100%25' y2='100%25'%3E%3Cstop offset='0%25' style='stop-color:%23e91e63'/%3E%3Cstop offset='100%25' style='stop-color:%239c27b0'/%3E%3C/linearGradient%3E" else [])
       ++ js "%3C/defs%3E%3Crect width='600' height='600' fill='"
       ++ (if isGradient then js "url(%23grad)" else bgStyle)
       ++ js "'/%3E%3Ccircle cx='300' cy='300' r='220' fill='none' stroke='rgba(255,255,255,0.1)' stroke-width='3'/%3E%3Ccircle cx='300' cy='300' r='150' fill='none' stroke='rgba(255,255,255,0.1)' stroke-width='2'/%3E%3Ccircle cx='300' cy='300' r='30' fill='rgba(255,255,255,0.2)'/%3E%3Ctext x='300' y='320' font-family='Arial' font-size='20' fill='rgba(255,255,255,0.7)' text-anchor='middle'%3E"
       ++ encodedAlbum
       ++ js "%3C/text%3E%3C/svg%3E" in
  let nivelRaridade :=
    match raridadeMap (cor_prensagem vinil) with
    | Some n => n
    | None => 1%nat
    end in
  let estrelas := JsString.repeat (js "⭐") (Nat.min nivelRaridade 5) in
  Normal (
    tpl "
        <div class=`detalhes-vinil`>
            <div class=`detalhes-vinil-header`>
                <h2 class=`detalhes-vinil-title`>"
    ++ escapeHTML (album vinil)
    ++ tpl "</h2>
            </div>
            <div class=`detalhes-vinil-content`>
                <div class=`detalhes-vinil-image-wrapper`>
                    <img src=`"
    ++ svgPlaceholder
    ++ tpl "` alt=`"
    ++ album vinil
    ++ tpl "` class=`detalhes-vinil-image`>
                </div>
                <div class=`detalhes-vinil-info`>
                    <div class=`detalhes-vinil-artist-section`>
                        <h3 class=`detalhes-vinil-artist`>"
    ++ escapeHTML (artista vinil)
    ++ tpl "</h3>
                        <p class=`detalhes-vinil-subtitle`>"
    ++ escapeHTML (album vinil)
    ++ js " ("
    ++ numberToString (Int (ano vinil))
    ++ tpl ")</p>
                    </div>
                    
                    <div class=`detalhes-vinil-meta-grid`>
                        <div class=`detalhes-meta-item`>
                            <span class=`detalhes-meta-icon`>💿</span>
                            <div class=`detalhes-meta-text`>
                                <span class=`detalhes-meta-label`>Cor</span>
                                <span class=`detalhes-meta-value`>"
    ++ escapeHTML (or_else (cor_prensagem vinil) (js "N/A"))
    ++ tpl "</span>
                            </div>
                        </div>
                        
                        <div class=`detalhes-meta-item`>
                            <span class=`detalhes-meta-icon`>📅</span>
                            <div class=`detalhes-meta-text`>
                                <span class=`detalhes-meta-label`>Ano</span>
                                <span class=`detalhes-meta-value`>"
    ++ numberToString (Int (ano vinil))
    ++ tpl "</span>
                            </div>
                        </div>
                        
                        <div class=`detalhes-meta-item`>
                            <span class=`detalhes-meta-icon`>🏢</span>
                            <div class=`detalhes-meta-text`>
                                <span class=`detalhes-meta-label`>Selo</span>
                                <span class=`detalhes-meta-value`>"
    ++ escapeHTML (opt_or_else (selo vinil) (js "N/A"))
    ++ tpl "</span>
                            </div>
                        </div>
                        
                        <div class=`detalhes-meta-item`>
                            <span class=`detalhes-meta-icon`>💽</span>
                            <div class=`detalhes-meta-text`>
                                <span class=`detalhes-meta-label`>Mídia</span>
                                <span class=`detalhes-meta-value`>"
    ++ escapeHTML (or_else (midia vinil) (js "LP"))
    ++ tpl "</span>
                            </div>
                        </div>
                        
                        <div class=`detalhes-meta-item`>
                            <span class=`detalhes-meta-icon`>🎀</span>
                            <div class=`detalhes-meta-text`>
                                <span class=`detalhes-meta-label`>Raridade</span>
                                <span class=`detalhes-meta-value`>"
    ++ estrelas
    ++ tpl "</span>
                            </div>
                        </div>
                    </div>
                    
                    <button class=`btn-rare-item`>
                        <span>⭐</span> Item Raro na Coleção
                    </button>
                </div>
            </div>
            
            <div class=`detalhes-vinil-tracklist`>
                <h4 class=`tracklist-title`>🎵 Tracklist</h4>
                <div class=`tracklist-grid`>
                    <div class=`tracklist-item`><span class=`track-number`>01</span> Speak to Me</div>
                    <div class=`tracklist-item`><span class=`track-number`>02</span> Breathe</div>
                    <div class=`tracklist-item`><span class=`track-number`>03</span> On the Run</div>
                    <div class=`tracklist-item`><span class=`track-number`>04</span> Time</div>
                    <div class=`tracklist-item`><span class=`track-number`>05</span> The Great Gig in the Sky</div>
                    <div class=`tracklist-item`><span class=`track-number`>06</span> Money</div>
                    <div class=`tracklist-item`><span class=`track-number`>07</span> Us and Them</div>
                    <div class=`tracklist-item`><span class=`track-number`>08</span> Any Colour You Like</div>
                </div>
            </div>
        </div>
    ")
  end
  end.

(** ** Notifications *)

(** The element [showNotification] builds. *)
Definition notificationElement (message : jsstring) (type : NotificationType)
  : Notification :=
  {| notification_class := js "notification notification-" ++ type_name type;
     notification_html :=
               tpl "
        <span class=`notification-icon`>"
       ++ (match type with Success => js "✓" | _ => js "⚠" end)
       ++ tpl "</span>
        <span class=`notification-message`>"
       ++ escapeHTML message
       ++ js "</span>
    "  |}.

(** Any previous notification is removed and the new one is appended. *)
Definition showNotification (message : jsstring) (type : NotificationType)
           (dom : Dom) : Dom :=
  with_notification (Some (notificationElement message type)) dom.

Definition showError (message : jsstring) (dom : Dom) : Dom :=
  showNotification message Error_ dom.

Definition showSuccess (message : jsstring) (dom : Dom) : Dom :=
  showNotification message Success dom.

(** ** The grid *)

(** Number of distinct strings ([new Set(...).size]). *)
Fixpoint distinct (l : list jsstring) : list jsstring :=
  match l with
  | [] => []
  | s :: l' =>
    if existsb (JsString.eqb s) l' then distinct l' else s :: distinct l'
  end.

(** [Math.min(...anos)] for a non-empty list. *)
Definition minimum (first : Z) (rest : list Z) : Z := fold_left Z.min rest first.

Definition is_empty (vinis : option (list Vinil)) : bool :=
  match vinis with
  | None => true
  | Some l => Nat.eqb (List.length l) 0
  end.

Definition elements (vinis : option (list Vinil)) : list Vinil :=
  match vinis with
  | None => []
  | Some l => l
  end.

Definition updateMiniStats (vinis : option (list Vinil)) (dom : Dom) : Dom :=
  if is_empty vinis then dom
  else
    let vinis := elements vinis in
    let raridades :=
      List.length
        (filter (fun v => truthy (cor_prensagem v)
                          && (includes (cor_prensagem v) (js "Colorido")
                              || includes (cor_prensagem v) (js "Transparente")))
                vinis) in
    let artistas := List.length (distinct (List.map artista vinis)) in
    let anos := filter (fun a => negb (a =? 0)%Z) (List.map ano vinis) in
    let maisAntigo :=
      match anos with
      | a :: rest => numberToString (Int (minimum a rest))
      | [] => js "----"
      end in
    with_mini_stats
      {| total_vinis_text := numberToString (Int (Z.of_nat (List.length vinis)));
         total_raridades_text := numberToString (Int (Z.of_nat raridades));
         total_artistas_text := numberToString (Int (Z.of_nat artistas));
         ano_mais_antigo_text := maisAntigo |}
      dom.

(** The [forEach] loop: cards are appended one by one; a card that cannot be
    built stops the loop with the cards appended so far in place. *)
Fixpoint appendCards (vinis : list Vinil) (dom : Dom) : Dom * option Error :=
  match vinis with
  | [] => (dom, None)
  | vinil :: rest =>
    match createVinilCard vinil with
    | Throw e => (dom, Some e)
    | Normal card => appendCards rest (with_vinis_grid (vinis_grid dom ++ [card]) dom)
    end
  end.

(** Returns the document and the exception thrown, if any. *)
Definition renderVinisGrid (vinis : option (list Vinil)) (dom : Dom)
  : Dom * option Error :=
  let dom := with_loading DisplayNone dom in
  let dom := with_vinis_grid [] dom in
  if is_empty vinis then (with_no_results DisplayFlex dom, None)
  else
    let dom := with_no_results DisplayNone dom in
    match appendCards (elements vinis) dom with
    | (dom, Some e) => (dom, Some e)
    | (dom, None) => (updateMiniStats vinis dom, None)
    end.

End Renderer.

(** ** Detail modal *)

Definition showVinilDetailsModal (id : Z) (dom : Dom) : prog Dom :=
  r <- Api.getVinilById (Int id) ;;
  let fail (error : Error) :=
    let dom :=
      with_detalhes_content
        (tpl "<p style=`color: red;`>Erro ao carregar detalhes: "
       ++ message error
       ++ js "</p>")
        dom in
    with_modals (set_active ModalDetalhes true (modals dom)) dom in
  match r with
  | Rejected error => Ret (fail error)
  | Resolved vinil =>
    match createVinilDetailsHTML vinil with
    | Throw error => Ret (fail error)
    | Normal html =>
      let dom := with_detalhes_content html dom in
      Ret (with_modals (set_active ModalDetalhes true (modals dom)) dom)
    end
  end.

(** ** Statistics *)

Definition stat_cards_cor (itens : list Contagem) : jsstring :=
  flat_map (fun item =>
    tpl "
                <div class=`stat-card`>
                    <h4>"
    ++ escapeHTML (rotulo item)
    ++ tpl "</h4>
                    <div class=`stat-value`>"
    ++ numberToString (Int (quantidade item))
    ++ js "</div>
                </div>
            ") itens.

Definition stat_cards_artista (itens : list Contagem) : jsstring :=
  flat_map (fun item =>
    tpl "
                <div class=`stat-card`>
                    <h4>"
    ++ escapeHTML (rotulo item)
    ++ tpl "</h4>
                    <div class=`stat-value`>"
    ++ numberToString (Int (quantidade item))
    ++ js "</div>
                </div>
            ") itens.

Definition renderStats (stats : Stats) (dom : Dom) : Dom :=
  let html := tpl "<div class=`stats-grid`>" in
  let html :=
    match total_vinis stats with
    | Some total =>
      html ++ tpl "
            <div class=`stat-card`>
                <h4>Total de Vinis</h4>
                <div class=`stat-value`>"
         ++ numberToString (Int total)
         ++ js "</div>
            </div>
        "
    | None => html
    end in
  let html :=
    match por_cor stats with
    | Some itens => html ++ stat_cards_cor itens
    | None => html
    end in
  let html := html ++ js "</div>" in
  let html :=
    match por_artista stats with
    | Some (item :: itens) =>
      html ++ tpl "<h3 style=`margin-top: 2rem; margin-bottom: 1rem;`>Por Artista</h3>"
           ++ tpl "<div class=`stats-grid`>"
           ++ stat_cards_artista (firstn 6 (item :: itens))
           ++ js "</div>"
    | _ => html
    end in
  let html :=
    html ++ tpl "
        <div class=`stats-raw`>
            <h3>Dados completos:</h3>
            <pre>"
       ++ stats_json stats
       ++ js "</pre>
        </div>
    " in
  with_stats_container html dom.

Definition showStatsLoading (dom : Dom) : Dom :=
  with_stats_container
    (tpl "<div class=`stats-loading`>Carregando estatísticas...</div>") dom.

(** ** Comparison modal, modals, loading *)

Definition showComparacaoModal (dom : Dom) : Dom :=
  let dom := with_modals (set_active ModalComparar true (modals dom)) dom in
  let dom := with_vinil_ids [] [] dom in
  with_comparacao DisplayNone (comparacao_output dom) dom.

Definition hideModal (modal : Modal) (dom : Dom) : Dom :=
  with_modals (set_active modal false (modals dom)) dom.

Definition showComparacaoResultado (resultado : Comparacao) (dom : Dom) : Dom :=
  with_comparacao DisplayBlock (Some resultado) dom.

Definition showLoading (dom : Dom) : Dom :=
  let dom := with_loading DisplayBlock dom in
  let dom := with_no_results DisplayNone dom in
  with_vinis_grid [] dom.

End Ui.

Import Ui.

(* ================================================================== *)
(** * main.js: the coordinator *)
(* ================================================================== *)

Module Main.

Local Open Scope prog_scope.

(** ** State *)

Record AppState : Type := mkAppState {
  currentVinis : list Vinil;
  isSearching : bool;
  currentSection : jsstring
}.

(** The values of the inputs of the form. *)
Record FormFields : Type := mkFormFields {
  form_artista : jsstring;
  form_album : jsstring;
  form_cor : jsstring;
  form_ano : jsstring;
  form_midia : jsstring;
  form_selo : jsstring
}.

(** The form and the image picker.  [defaults] are the values [form.reset()]
    restores (those of the page markup); [editId] is [form.dataset.editId]. *)
Record Form : Type := mkForm {
  fields : FormFields;
  defaults : FormFields;
  editId : option jsstring;
  submit_disabled : bool;
  submit_html : jsstring;
  form_capa : jsstring;
  preview_src : jsstring;
  preview_display : Display;
  btn_remove_display : Display;
  placeholder_display : Display
}.

Record App : Type := mkApp {
  dom : Dom;
  form : Form;
  appState : AppState
}.

Definition on_dom (f : Dom -> Dom) (app : App) : App :=
  mkApp (f (dom app)) (form app) (appState app).

Definition with_dom (d : Dom) (app : App) : App :=
  mkApp d (form app) (appState app).

Definition on_form (f : Form -> Form) (app : App) : App :=
  mkApp (dom app) (f (form app)) (appState app).

Definition with_currentVinis (vinis : list Vinil) (app : App) : App :=
  mkApp (dom app) (form app)
        (mkAppState vinis (isSearching (appState app))
                    (currentSection (appState app))).

Definition with_isSearching (b : bool) (app : App) : App :=
  mkApp (dom app) (form app)
        (mkAppState (currentVinis (appState app)) b
                    (currentSection (appState app))).

Definition with_submit (disabled : bool) (html : jsstring) (f : Form) : Form :=
  mkForm (fields f) (defaults f) (editId f) disabled html (form_capa f)
         (preview_src f) (preview_display f) (btn_remove_display f)
         (placeholder_display f).

(** [form.reset()]. *)
Definition reset (f : Form) : Form :=
  mkForm (defaults f) (defaults f) (editId f) (submit_disabled f)
         (submit_html f) (form_capa f) (preview_src f) (preview_display f)
         (btn_remove_display f) (placeholder_display f).

(** [delete form.dataset.editId]. *)
Definition delete_editId (f : Form) : Form :=
  mkForm (fields f) (defaults f) None (submit_disabled f) (submit_html f)
         (form_capa f) (preview_src f) (preview_display f)
         (btn_remove_display f) (placeholder_display f).

Definition clearImagePreview (f : Form) : Form :=
  mkForm (fields f) (defaults f) (editId f) (submit_disabled f) (submit_html f)
         [] [] DisplayNone DisplayNone DisplayBlock.

Definition getImageData (f : Form) : option jsstring :=
  if truthy (preview_src f)
     && negb match preview_display f with DisplayNone => true | _ => false end
  then Some (preview_src f)
  else None.

(** ** Statistics *)

Definition loadStats (app : App) : prog App :=
  let app := on_dom showStatsLoading app in
  r <- Api.getStatsCores ;;
  match r with
  | Resolved stats => Ret (on_dom (renderStats stats) app)
  | Rejected _ =>
    Ret (on_dom (showError (js "Não foi possível carregar as estatísticas.")) app)
  end.

(** ** Comparison *)

Definition compararPrensagens (app : App) : prog App :=
  let idA := parseInt (vinil_id_a (dom app)) in
  let idB := parseInt (vinil_id_b (dom app)) in
  if negb (number_truthy idA) || negb (number_truthy idB) then
    Ret (on_dom (showError (js "Por favor, preencha ambos os IDs.")) app)
  else if number_strict_eq idA idB then
    Ret (on_dom (showError (js "Os IDs devem ser diferentes.")) app)
  else
    r <- Api.compararPrensagens idA idB ;;
    match r with
    | Resolved resultado => Ret (on_dom (showComparacaoResultado resultado) app)
    | Rejected error =>
      Ret (on_dom (showError (js "Erro ao comparar: " ++ message error)) app)
    end.

Section Coordinator.

Variable toLowerCase : jsstring -> jsstring.

(** ** Listing and search *)

(** The [catch] clause of [loadVinis]. *)
Definition loadVinis_failed (app : App) : App :=
  let app :=
    on_dom (showError (js "Não foi possível carregar os vinis. Verifique se a API está rodando."))
           app in
  on_dom (with_loading DisplayNone) app.

Definition loadVinis (app : App) : prog App :=
  let app := on_dom showLoading app in
  r <- Api.getVinis ;;
  match r with
  | Rejected _ => Ret (loadVinis_failed app)
  | Resolved vinis =>
    let app := with_currentVinis vinis app in
    match renderVinisGrid toLowerCase (Some vinis) (dom app) with
    | (d, None) => Ret (with_dom d app)
    | (d, Some _) => Ret (loadVinis_failed (with_dom d app))
    end
  end.

Definition buscarVinis (termo : jsstring) (app : App) : prog App :=
  if (List.length termo <? 2)%nat then
    app <- loadVinis app ;;
    Ret (with_isSearching false app)
  else
    let app := on_dom showLoading app in
    let app := with_isSearching true app in
    vinis <- Api.buscarVinis termo ;;
    let app := with_currentVinis vinis app in
    match renderVinisGrid toLowerCase (Some vinis) (dom app) with
    | (d, None) => Ret (with_dom d app)
    | (d, Some _) =>
      let app := on_dom (showError (js "Erro ao realizar a busca.")) (with_dom d app) in
      Ret (on_dom (with_loading DisplayNone) app)
    end.

(** ** The form *)

(** The object collected from the inputs. *)
Definition collect (f : Form) : VinilData :=
  {| data_artista := trim (form_artista (fields f));
     data_album := trim (form_album (fields f));
     data_cor_prensagem := form_cor (fields f);
     data_ano := parseInt (form_ano (fields f));
     data_midia := form_midia (fields f);
     data_selo :=
       (let selo := trim (form_selo (fields f)) in
        if truthy selo then Some selo else None);
     data_capa := getImageData f |}.

Definition handleFormSubmit (app : App) : prog App :=
  let originalBtnText := submit_html (form app) in
  let editId := editId (form app) in
  let isEdit := match editId with Some s => truthy s | None => false end in
  (* finally *)
  let finally (app : App) := on_form (with_submit false originalBtnText) app in
  let app := on_form (with_submit true (js "<span>⏳</span> Salvando...")) app in
  let vinilData := collect (form app) in
  if negb (truthy (data_artista vinilData))
     || negb (truthy (data_album vinilData))
     || negb (truthy (data_cor_prensagem vinilData))
     || negb (number_truthy (data_ano vinilData))
     || negb (truthy (data_midia vinilData))
  then
    Ret (finally
           (on_dom (showError (js "Por favor, preencha todos os campos obrigatórios."))
                   app))
  else if number_lt (data_ano vinilData) (Int 1900)
          || number_gt (data_ano vinilData) (Int 2025)
  then
    Ret (finally (on_dom (showError (js "Ano deve estar entre 1900 e 2025.")) app))
  else
    r <- (if isEdit
          then Api.atualizarVinil (match editId with Some s => s | None => [] end)
                                  vinilData
          else Api.adicionarVinil vinilData) ;;
    match r with
    | Rejected error =>
      Ret (finally
             (on_dom (showError (js "Erro ao adicionar vinil: " ++ message error))
                     app))
    | Resolved resultado =>
      let app := on_dom (hideModal ModalForm) app in
      let mensagem :=
        if isEdit
        then tpl "Vinil `" ++ album resultado ++ tpl "` atualizado com sucesso!"
        else tpl "Vinil `" ++ album resultado ++ tpl "` adicionado com sucesso!" in
      let app := on_dom (showSuccess mensagem) app in
      app <- loadVinis app ;;
      let app := on_form reset app in
      let app := on_form delete_editId app in
      let app := on_form clearImagePreview app in
      Ret (finally app)
    end.

End Coordinator.

End Main.

Import Main.

(* ================================================================== *)
(** * main.js: the event handlers *)
(* ================================================================== *)

Module Handlers.

Local Open Scope prog_scope.

(** ** The rest of the page *)

(** The controls of the form a value can be assigned to. *)
Inductive Control : Set :=
| FormArtista | FormAlbum | FormCor | FormAno | FormSelo | FormMidia.

(** An [option] element added to the colour filter. *)
Record ColorOption : Type := mkColorOption {
  option_value : jsstring;
  option_text : jsstring
}.

(** The application together with the elements only the handlers touch: the
    title of the form modal, the two filters (the options added to the colour
    filter, and the chosen values, empty when nothing is chosen). *)
Record Page : Type := mkPage {
  page_app : App;
  modal_form_title : jsstring;
  filter_cor_options : list ColorOption;
  filter_cor : jsstring;
  filter_midia : jsstring
}.

Definition on_app (f : App -> App) (page : Page) : Page :=
  mkPage (f (page_app page)) (modal_form_title page) (filter_cor_options page)
         (filter_cor page) (filter_midia page).

Definition with_app (a : App) (page : Page) : Page :=
  mkPage a (modal_form_title page) (filter_cor_options page)
         (filter_cor page) (filter_midia page).

Definition with_title (title : jsstring) (page : Page) : Page :=
  mkPage (page_app page) title (filter_cor_options page)
         (filter_cor page) (filter_midia page).

Definition with_color_options (options : list ColorOption) (page : Page) : Page :=
  mkPage (page_app page) (modal_form_title page) options
         (filter_cor page) (filter_midia page).

Definition with_fields (v : FormFields) (f : Form) : Form :=
  mkForm v (defaults f) (editId f) (submit_disabled f) (submit_html f)
         (form_capa f) (preview_src f) (preview_display f)
         (btn_remove_display f) (placeholder_display f).

Definition with_editId (v : option jsstring) (f : Form) : Form :=
  mkForm (fields f) (defaults f) v (submit_disabled f) (submit_html f)
         (form_capa f) (preview_src f) (preview_display f)
         (btn_remove_display f) (placeholder_display f).

Definition with_form_capa (v : jsstring) (f : Form) : Form :=
  mkForm (fields f) (defaults f) (editId f) (submit_disabled f) (submit_html f)
         v (preview_src f) (preview_display f)
         (btn_remove_display f) (placeholder_display f).

(** The preview image is given a source and shown, with the remove button,
    in place of the placeholder. *)
Definition show_preview (src : jsstring) (f : Form) : Form :=
  mkForm (fields f) (defaults f) (editId f) (submit_disabled f) (submit_html f)
         (form_capa f) src DisplayBlock DisplayBlock DisplayNone.

(** ** Image picker *)

(** A file chosen in the picker: its size in bytes and its media type. *)
Record File : Type := mkFile {
  file_size : Z;
  file_type : jsstring
}.

(** The [change] listener of the file input, up to [readAsDataURL]; the
    boolean tells whether the file is handed to the reader. *)
Definition onFileChange (file : option File) (app : App) : App * bool :=
  match file with
  | None => (app, false)
  | Some file =>
    if (5 * 1024 * 1024 <? file_size file)%Z then
      let app := on_dom (showError (js "Imagem muito grande! Máximo 5MB.")) app in
      (on_form (with_form_capa []) app, false)
    else if negb (startsWith (file_type file) (js "image/")) then
      let app := on_dom (showError (js "Formato inválido! Use JPG, PNG, GIF ou WEBP.")) app in
      (on_form (with_form_capa []) app, false)
    else (app, true)
  end.

(** [reader.onload], with the data URL the reader produced. *)
Definition onFileRead (result : jsstring) (app : App) : App :=
  on_form (show_preview result) app.

(** ** Keyboard *)

(** The [keydown] listener, for the Escape key. *)
Definition onEscape (dom : Dom) : Dom :=
  let dom := hideModal ModalDetalhes dom in
  let dom := hideModal ModalStats dom in
  hideModal ModalForm dom.

(** ** Colour filter *)

(** A failure is logged and nothing else. *)
Definition populateColorFilter (page : Page) : prog Page :=
  r <- Api.getStatsCores ;;
  match r with
  | Rejected _ => Ret page
  | Resolved stats =>
    match por_cor stats with
    | Some itens =>
      Ret (with_color_options
             (filter_cor_options page
              ++ List.map (fun item =>
                             {| option_value := rotulo item;
                                option_text :=
                                  rotulo item ++ js " ("
                                  ++ numberToString (Int (quantidade item))
                                  ++ js ")" |})
                          itens)
             page)
    | None => Ret page
    end
  end.

Section Events.

Variable toLowerCase : jsstring -> jsstring.

(** What a control keeps of a value assigned to its [value] property: the
    kind of each control (text, number, select) is set by the page markup. *)
Variable stored : Control -> jsstring -> jsstring.

(** ** Deleting *)

(** [confirmacao] is the answer to the confirmation dialog. *)
Definition handleDeleteVinil (confirmacao : bool) (id : number) (app : App)
  : prog App :=
  if negb confirmacao then Ret app
  else
    r <- Api.deletarVinil id ;;
    match r with
    | Rejected error =>
      Ret (on_dom (showError (js "Erro ao deletar vinil: " ++ message error)) app)
    | Resolved _ =>
      let app := on_dom (hideModal ModalDetalhes) app in
      let app :=
        on_dom (showSuccess (js "Vinil deletado com sucesso da sua coleção!")) app in
      loadVinis toLowerCase app
    end.

(** The delegated [click] listener, on a delete button that carries the
    identifier [vinilId] in its data set. *)
Definition onDeleteClick (vinilId : jsstring) (confirmacao : bool) (app : App)
  : prog App :=
  let vinilId := parseInt vinilId in
  if number_truthy vinilId then handleDeleteVinil confirmacao vinilId app
  else Ret app.

(** ** Editing and adding *)

Definition handleEditVinil (id : number) (page : Page) : prog Page :=
  r <- Api.getVinilById id ;;
  match r with
  | Rejected error =>
    Ret (on_app (on_dom (showError (js "Erro ao carregar vinil: "
                                    ++ message error)))
                page)
  | Resolved vinil =>
    let page := on_app (on_dom (hideModal ModalDetalhes)) page in
    let page := with_title (js "✏️ Editar Vinil") page in
    let page :=
      on_app (on_form (with_fields
        {| form_artista := stored FormArtista (artista vinil);
           form_album := stored FormAlbum (album vinil);
           form_cor := stored FormCor (cor_prensagem vinil);
           form_ano := stored FormAno (numberToString (Int (ano vinil)));
           form_midia := stored FormMidia (midia vinil);
           form_selo := stored FormSelo (opt_or_else (selo vinil) []) |}))
        page in
    let page := on_app (on_form (with_editId (Some (numberToString id)))) page in
    let page :=
      if match capa vinil with Some c => truthy c | None => false end then
        let c := match capa vinil with Some c => c | None => [] end in
        let imgUrl :=
          if startsWith c (js "/uploads")
          then js "http://localhost:5000" ++ c
          else c in
        on_app (on_form (show_preview imgUrl)) page
      else page in
    Ret (on_app (on_dom (fun dom =>
                           with_modals (set_active ModalForm true (modals dom))
                                       dom))
                page)
  end.

(** The delegated [click] listener, on an edit button. *)
Definition onEditClick (vinilId : jsstring) (page : Page) : prog Page :=
  let vinilId := parseInt vinilId in
  if number_truthy vinilId then handleEditVinil vinilId page
  else Ret page.

(** The [click] listener of the add button. *)
Definition onAddClick (page : Page) : Page :=
  let page := with_title (js "➕ Adicionar Novo Vinil") page in
  let page := on_app (on_form reset) page in
  let page := on_app (on_form clearImagePreview) page in
  let page := on_app (on_form delete_editId) page in
  on_app (on_dom (fun dom =>
                    with_modals (set_active ModalForm true (modals dom)) dom))
         page.

(** ** Search box *)

(** The timer callback of the [input] listener, run half a second after the
    last keystroke with the trimmed text of the box. *)
Definition onSearchTimeout (termo : jsstring) (app : App) : prog App :=
  if (2 <=? List.length termo)%nat then Main.buscarVinis toLowerCase termo app
  else loadVinis toLowerCase app.

(** The [input] listener: the pending timer, if any, is cleared and a new
    one is set; [None] is no pending timer. *)
Definition onSearchInput (value : jsstring) (searchTimeout : option jsstring)
  : option jsstring :=
  Some (trim value).

(** ** Filters *)

(** The [catch] clause of [applyFilters]. *)
Definition applyFilters_failed (app : App) : App :=
  on_dom (showError (js "Erro ao aplicar filtros.")) app.

Definition applyFilters (page : Page) : prog Page :=
  let cor := filter_cor page in
  let midia := filter_midia page in
  let shown (vinis : list Vinil) (app : App) : App :=
    let filtered := vinis in
    let filtered :=
      if truthy cor
      then filter (fun v => JsString.eqb (cor_prensagem v) cor) filtered
      else filtered in
    let filtered :=
      if truthy midia
      then filter (fun v => JsString.eqb (Model.midia v) midia) filtered
      else filtered in
    match renderVinisGrid toLowerCase (Some filtered) (dom app) with
    | (d, None) => with_dom d app
    | (d, Some _) => applyFilters_failed (with_dom d app)
    end in
  let a := on_dom showLoading (page_app page) in
  let vinis := currentVinis (appState a) in
  if Nat.eqb (List.length vinis) 0 then
    r <- Api.getVinis ;;
    match r with
    | Rejected _ => Ret (with_app (applyFilters_failed a) page)
    | Resolved vinis =>
      let a := with_currentVinis vinis a in
      Ret (with_app (shown vinis a) page)
    end
  else Ret (with_app (shown vinis a) page).

End Events.

End Handlers.

Import Handlers.

(* ================================================================== *)
(** * Vocabulary of the specification *)
(* ================================================================== *)

Module Spec.

(** Identifiers in the order of their first occurrence, each once. *)
Fixpoint first_occurrences (ids : list Z) : list Z :=
  match ids with
  | [] => []
  | i :: rest => i :: filter (fun j => negb (j =? i)%Z) (first_occurrences rest)
  end.

(** The first, and the last, record of a sequence that carries an
    identifier. *)
Definition first_with_id (i : Z) (l : list Vinil) : option Vinil :=
  find (fun v => (id v =? i)%Z) l.

Definition last_with_id (i : Z) (l : list Vinil) : option Vinil :=
  first_with_id i (rev l).

(** Within a sequence of records, an identifier names one record. *)
Definition id_determines_record (l : list Vinil) : Prop :=
  forall x y, In x l -> In y l -> id x = id y -> x = y.

(** [Map.prototype.get], to speak about the entries of a map. *)
Fixpoint map_get {V : Type} (m : list (Z * V)) (k : Z) : option V :=
  match m with
  | [] => None
  | (k', v) :: m' => if (k' =? k)%Z then Some v else map_get m' k
  end.

(** The keys of a map, in insertion order. *)
Definition keys {V : Type} (m : list (Z * V)) : list Z := List.map fst m.

(** [j] is not among the identifiers seen so far. *)
Definition unseen (seen : list Z) (j : Z) : bool :=
  negb (existsb (Z.eqb j) seen).

(** The entry [vinisUnicos] makes of a record. *)
Definition entry (v : Vinil) : Z * Vinil := (id v, v).

(** The document shows an error notification. *)
Definition shows_error (d : Dom) : Prop :=
  exists msg, notification d = Some (notificationElement msg Error_).

(** The document is in the "no results" state it was put in from [before]:
    the placeholder is shown, the grid has no card, the loading indicator is
    hidden and the notification area is as it was. *)
Definition shows_no_results (before after : Dom) : Prop :=
  no_results after = DisplayFlex
  /\ vinis_grid after = []
  /\ loading after = DisplayNone
  /\ notification after = notification before.

(** The call a valid form leads to: an update of the record being edited
    when the form carries its identifier, a creation otherwise; in both cases
    with the collected data as body. *)
Definition submission (f : Form) : Request :=
  match editId f with
  | Some (c :: i) => mkRequest (js "/vinis/" ++ c :: i) PUT (Some (collect f))
  | _ => mkRequest (js "/vinis/") POST (Some (collect f))
  end.

(** A service given by its answers, endpoint by endpoint. *)
Definition service (lists : jsstring -> result (list Vinil))
           (records : jsstring -> result Vinil)
           (stats : result Stats) : Server :=
  fun t req =>
    match t with
    | TVinis => lists (endpoint req)
    | TVinil => records (endpoint req)
    | TStats => stats
    | TEmpty => Resolved tt
    end.

(** The code units the escaping step rewrites. *)
Definition needs_escaping (c : N) : bool :=
  (c =? 38)%N || (c =? 160)%N || (c =? 60)%N || (c =? 62)%N.

(** The record has a cover image. *)
Definition has_cover (v : Vinil) : bool :=
  match capa v with
  | Some c => truthy c
  | None => false
  end.

(** The cards of a list of records, when every one of them can be built. *)
Fixpoint build_all (lower : jsstring -> jsstring) (vinis : list Vinil)
  : option (list Card) :=
  match vinis with
  | [] => Some []
  | v :: rest =>
    match createVinilCard lower v, build_all lower rest with
    | Normal card, Some cards => Some (card :: cards)
    | _, _ => None
    end
  end.

(** The elements of the document the grid is not made of. *)
Definition outside_grid (d : Dom)
  : jsstring * jsstring * jsstring * jsstring * Display * option Comparacao
    * option Notification * Modals :=
  (stats_container d, detalhes_content d, vinil_id_a d, vinil_id_b d,
   comparacao_resultado d, comparacao_output d, notification d, modals d).

(** The list request. *)
Definition list_request : Request := mkRequest (js "/vinis/") GET None.

(** The characters that would end or split a query parameter, leave the
    path, or leave a quoted attribute. *)
Definition breaks_query (c : N) : bool :=
  (c =? 32)%N || (c =? 34)%N || (c =? 35)%N || (c =? 38)%N || (c =? 47)%N
  || (c =? 60)%N || (c =? 61)%N || (c =? 62)%N || (c =? 63)%N.

(** The code units of a decimal numeral. *)
Fixpoint digit_codes (d : Decimal.uint) : jsstring :=
  match d with
  | Decimal.Nil => []
  | Decimal.D0 d => 48%N :: digit_codes d
  | Decimal.D1 d => 49%N :: digit_codes d
  | Decimal.D2 d => 50%N :: digit_codes d
  | Decimal.D3 d => 51%N :: digit_codes d
  | Decimal.D4 d => 52%N :: digit_codes d
  | Decimal.D5 d => 53%N :: digit_codes d
  | Decimal.D6 d => 54%N :: digit_codes d
  | Decimal.D7 d => 55%N :: digit_codes d
  | Decimal.D8 d => 56%N :: digit_codes d
  | Decimal.D9 d => 57%N :: digit_codes d
  end.

(** The delete request of a record. *)
Definition delete_request (id : number) : Request :=
  mkRequest (js "/vinis/" ++ numberToString id) DELETE None.

(** The form passes the checks of [handleFormSubmit]. *)
Definition valid_form (f : Form) : Prop :=
  trim (form_artista (fields f)) <> []
  /\ trim (form_album (fields f)) <> []
  /\ form_cor (fields f) <> []
  /\ form_midia (fields f) <> []
  /\ exists y, parseInt (form_ano (fields f)) = Int y /\ (1900 <= y <= 2025)%Z.

(** The address the preview is given for the cover of a record. *)
Definition cover_url (c : jsstring) : jsstring :=
  if startsWith c (js "/uploads") then js "http://localhost:5000" ++ c else c.

(** The update request for the record being edited. *)
Definition update_request (id : number) (data : VinilData) : Request :=
  mkRequest (js "/vinis/" ++ numberToString id) PUT (Some data).

(** A record passes both filters; an empty filter lets every record pass. *)
Definition passes_filters (cor midia : jsstring) (v : Vinil) : bool :=
  (negb (truthy cor) || JsString.eqb (cor_prensagem v) cor)
  && (negb (truthy midia) || JsString.eqb (Model.midia v) midia).

(** How many times a code unit occurs in a string. *)
Fixpoint count (c : N) (s : jsstring) : nat :=
  match s with
  | [] => 0
  | d :: s' => (if (d =? c)%N then 1 else 0) + count c s'
  end.

(** The address of the cover of a record, empty when it has none. *)
Definition cover_text (v : Vinil) : jsstring :=
  match capa v with
  | Some c => c
  | None => []
  end.

End Spec.

Import Spec.

(* ================================================================== *)
(** * Sample data *)
(* ================================================================== *)

Module Sample.

(** Lower case on the letters A to Z. *)
Definition lower (s : jsstring) : jsstring :=
  List.map (fun c => if ((65 <=? c) && (c <=? 90))%N then (c + 32)%N else c) s.

Definition unavailable : Error := newError (js "Failed to fetch").

(** Three records a search for [pink] finds: the first by its artist, the
    second by its title, the third by both. *)
Definition dark_side : Vinil :=
  mkVinil 1 (js "Pink Floyd") (js "The Dark Side of the Moon") (js "Preto")
          1973 (js "LP") (Some (js "Harvest Records")) None.

Definition pink_moon : Vinil :=
  mkVinil 2 (js "Nick Drake") (js "Pink Moon") (js "Transparente")
          1972 (js "LP") None None.

Definition pink_fairies : Vinil :=
  mkVinil 3 (js "Pink Fairies") (js "Pink Fairies Live") (js "Colorido")
          1982 (js "LP") None None.

(** The first record after its title has been edited. *)
Definition dark_side_retitled : Vinil :=
  mkVinil 1 (js "Pink Floyd") (js "The Pink Side of the Moon") (js "Preto")
          1973 (js "LP") (Some (js "Harvest Records")) None.

Definition pink : jsstring := js "pink".

(** A service whose artist search answers [artist] and whose title search
    answers [album]. *)
Definition search_service (artist album : result (list Vinil)) : Server :=
  service (fun endpoint =>
             if startsWith endpoint (js "/vinis/search?artista=") then artist
             else album)
          (fun _ => Rejected unavailable)
          (Rejected unavailable).

(** A service that holds the three records. *)
Definition catalogue : Server :=
  service (fun _ => Resolved [dark_side; pink_moon; pink_fairies])
          (fun endpoint =>
             if JsString.eqb endpoint (js "/vinis/1") then Resolved dark_side
             else if JsString.eqb endpoint (js "/vinis/2") then Resolved pink_moon
             else if JsString.eqb endpoint (js "/vinis/3") then Resolved pink_fairies
             else Rejected (newError (js "Vinil not found")))
          (Rejected unavailable).

(** The rejection of [response.json()] on an empty body (message as V8 words
    it). *)
Definition no_body : Error :=
  {| name := js "SyntaxError"; message := js "Unexpected end of JSON input" |}.

(** A service that answers a creation with the record created, and the list
    with the records it then holds. *)
Definition accepting : Server :=
  service (fun _ => Resolved [dark_side; pink_moon])
          (fun endpoint =>
             if JsString.eqb endpoint (js "/vinis/") then Resolved pink_moon
             else Rejected (newError (js "Vinil not found")))
          (Rejected unavailable).

(** A service that cannot be reached. *)
Definition offline : Server :=
  service (fun _ => Rejected unavailable) (fun _ => Rejected unavailable)
          (Rejected unavailable).

(** A record whose title is markup. *)
Definition script_title : Vinil :=
  mkVinil 4 (js "Anonymous") (js "<script>") (js "Preto") 2000 (js "LP")
          None None.

(** The page before anything is rendered. *)
Definition blank_dom : Dom :=
  mkDom [] DisplayUnset DisplayUnset (mkMiniStats [] [] [] []) [] [] [] []
        DisplayUnset None None (mkModals false false false false).

Definition empty_fields : FormFields := mkFormFields [] [] [] [] [] [].

Definition blank_form : Form :=
  mkForm empty_fields empty_fields None false (js "Salvar") [] []
         DisplayNone DisplayNone DisplayBlock.

Definition initial_state : AppState := mkAppState [] false (js "listagem").

Definition blank_app : App := mkApp blank_dom blank_form initial_state.

(** Statistics of the three records, and the page once they are rendered. *)
Definition three_records : Stats :=
  mkStats (Some 3%Z)
          (Some [mkContagem (js "Preto") 1; mkContagem (js "Transparente") 1;
                 mkContagem (js "Colorido") 1])
          None
          (js "{}").

Definition app_with_stats : App :=
  mkApp (renderStats three_records blank_dom) blank_form initial_state.

(** The form filled in for a new record, with the given year. *)
Definition filled_form (year : jsstring) : Form :=
  mkForm (mkFormFields (js "Nick Drake") (js " Pink Moon ") (js "Preto") year
                       (js "LP") (js ""))
         empty_fields None false (js "Salvar") [] []
         DisplayNone DisplayNone DisplayBlock.

Definition app_submitting (year : jsstring) : App :=
  mkApp blank_dom (filled_form year) initial_state.

(** The comparison modal filled in with two identifiers. *)
Definition app_comparing (a b : jsstring) : App :=
  mkApp (with_vinil_ids a b blank_dom) blank_form initial_state.

(** A record whose colour is the name of a property every object inherits. *)
Definition odd_colour : Vinil :=
  mkVinil 5 (js "Anonymous") (js "Untitled") (js "constructor") 1999 (js "LP")
          None None.

(** A page with nothing chosen in the filters. *)
Definition blank_page : Page := mkPage blank_app [] [] [] [].

(** Controls that keep the text assigned to them. *)
Definition keeps (c : Control) (s : jsstring) : jsstring := s.

(** A record with a cover stored by the service. *)
Definition with_cover : Vinil :=
  mkVinil 6 (js "Nick Drake") (js "Bryter Layter") (js "Preto") 1971 (js "LP")
          None (Some (js "/uploads/capas/bryter_layter.jpg")).

(** A service that holds that record too. *)
Definition covers : Server :=
  service (fun _ => Resolved [with_cover])
          (fun endpoint =>
             if JsString.eqb endpoint (js "/vinis/6") then Resolved with_cover
             else Rejected (newError (js "Vinil not found")))
          (Rejected unavailable).

(** The three records cached, with the filter set to transparent pressings. *)
Definition page_filtering : Page :=
  mkPage (mkApp blank_dom blank_form
                (mkAppState [dark_side; pink_moon; pink_fairies] false
                            (js "listagem")))
         [] [] (js "Transparente") [].

(** The application while search results are displayed. *)
Definition app_searching : App :=
  mkApp blank_dom blank_form (mkAppState [pink_moon] true (js "listagem")).

(** Statistics that list eight artists. *)
Definition many_artists : Stats :=
  mkStats None None
          (Some (List.map (fun n => mkContagem (js "A") n)
                          [1; 2; 3; 4; 5; 6; 7; 8]%Z))
          (js "{}").

End Sample.

(* ================================================================== *)
(** * Properties *)
(* ================================================================== *)

Unset Implicit Arguments.

(** Splits a conjunction into its parts, leaving equivalences whole. *)
Ltac split_all := repeat match goal with |- _ /\ _ => split end.

(** ** Running programs *)

Lemma run_bind (A B : Type) (server : Server) (p : prog A) (f : A -> prog B) :
  run server (bind p f) = run server (f (run server p)).
Proof.
  induction p as [a | t req k IH]; simpl.
  - reflexivity.
  - apply IH.
Qed.

Lemma trace_bind (A B : Type) (server : Server) (p : prog A) (f : A -> prog B) :
  trace server (bind p f)
  = trace server p ++ trace server (f (run server p)).
Proof.
  induction p as [a | t req k IH]; simpl.
  - reflexivity.
  - now rewrite IH.
Qed.

(** ** The map behind [vinisUnicos] *)

Section MapFacts.

Variable V : Type.
Implicit Types (m : list (Z * V)) (k : Z) (v : V).

Lemma map_get_set_same m k v : map_get (Api.map_set m k v) k = Some v.
Proof.
  induction m as [| [k' v'] m IH]; simpl.
  - now rewrite Z.eqb_refl.
  - destruct (k' =? k)%Z eqn:E; simpl; rewrite E; auto.
Qed.

Lemma map_get_set_other m k v k' :
  k' <> k -> map_get (Api.map_set m k v) k' = map_get m k'.
Proof.
  intros Hne. induction m as [| [k0 v0] m IH]; simpl.
  - destruct (k =? k')%Z eqn:E; [apply Z.eqb_eq in E; congruence | reflexivity].
  - destruct (k0 =? k)%Z eqn:E; simpl.
    + apply Z.eqb_eq in E. subst k0.
      destruct (k =? k')%Z eqn:E'; [apply Z.eqb_eq in E'; congruence | reflexivity].
    + destruct (k0 =? k')%Z; auto.
Qed.

Lemma map_get_In m k v : map_get m k = Some v -> In (k, v) m.
Proof.
  induction m as [| [k0 v0] m IH]; simpl; [discriminate |].
  destruct (k0 =? k)%Z eqn:E.
  - apply Z.eqb_eq in E. intros [= ->]. left. now subst.
  - auto.
Qed.

Lemma map_get_None m k : map_get m k = None <-> ~ In k (keys m).
Proof.
  induction m as [| [k0 v0] m IH]; simpl.
  - tauto.
  - destruct (k0 =? k)%Z eqn:E.
    + apply Z.eqb_eq in E. split; [discriminate | intros H; exfalso; auto].
    + apply Z.eqb_neq in E. rewrite IH. tauto.
Qed.

Lemma In_map_get m k v : NoDup (keys m) -> In (k, v) m -> map_get m k = Some v.
Proof.
  induction m as [| [k0 v0] m IH]; simpl; [tauto |].
  intros Hnd [Heq | Hin].
  - injection Heq as -> ->. now rewrite Z.eqb_refl.
  - inversion Hnd as [| ? ? Hnotin Hnd']; subst.
    destruct (k0 =? k)%Z eqn:E.
    + apply Z.eqb_eq in E. subst k0. exfalso. apply Hnotin.
      change k with (fst (k, v)). now apply in_map.
    + auto.
Qed.

Lemma keys_set_present m k v :
  In k (keys m) -> keys (Api.map_set m k v) = keys m.
Proof.
  induction m as [| [k0 v0] m IH]; simpl; [tauto |].
  intros Hin. destruct (k0 =? k)%Z eqn:E; simpl; [reflexivity |].
  apply Z.eqb_neq in E. f_equal. apply IH. tauto.
Qed.

Lemma keys_set_absent m k v :
  ~ In k (keys m) -> keys (Api.map_set m k v) = keys m ++ [k].
Proof.
  induction m as [| [k0 v0] m IH]; simpl; [reflexivity |].
  intros Hnotin. destruct (k0 =? k)%Z eqn:E; simpl.
  - apply Z.eqb_eq in E. tauto.
  - f_equal. apply IH. tauto.
Qed.

End MapFacts.

Section MapFold.

Variable V : Type.
Implicit Types (m es : list (Z * V)) (k : Z) (v : V).

Lemma map_get_app m1 m2 k :
  map_get (m1 ++ m2) k
  = match map_get m1 k with Some v => Some v | None => map_get m2 k end.
Proof.
  induction m1 as [| [k0 v0] m1 IH]; simpl; [reflexivity |].
  destruct (k0 =? k)%Z; auto.
Qed.

(** After [new Map(es)], a key holds the value of its last entry. *)
Lemma fold_set_get es m k :
  map_get (fold_left (fun m e => Api.map_set m (fst e) (snd e)) es m) k
  = match map_get (rev es) k with Some v => Some v | None => map_get m k end.
Proof.
  revert m. induction es as [| [k0 v0] es IH]; intros m; simpl.
  - reflexivity.
  - rewrite IH, map_get_app. destruct (map_get (rev es) k); [reflexivity |].
    simpl. destruct (k0 =? k)%Z eqn:E.
    + apply Z.eqb_eq in E. subst. apply map_get_set_same.
    + apply Z.eqb_neq in E. apply map_get_set_other. congruence.
Qed.

Lemma filter_filter (A : Type) (p q : A -> bool) (l : list A) :
  filter p (filter q l) = filter (fun x => p x && q x) l.
Proof.
  induction l as [| x l IH]; simpl; [reflexivity |].
  destruct (q x) eqn:Q; simpl.
  - destruct (p x); simpl; now rewrite IH.
  - rewrite andb_false_r. exact IH.
Qed.

Lemma unseen_true seen j : unseen seen j = true <-> ~ In j seen.
Proof.
  unfold unseen. rewrite negb_true_iff, <- not_true_iff_false, existsb_exists.
  split; intros H C; apply H.
  - exists j. split; [assumption | apply Z.eqb_refl].
  - destruct C as (x & Hin & E). apply Z.eqb_eq in E. now subst.
Qed.

(** After [new Map(es)], the keys are those of the initial map followed by the
    new keys in the order of their first entry. *)
Lemma fold_set_keys es m :
  keys (fold_left (fun m e => Api.map_set m (fst e) (snd e)) es m)
  = keys m ++ filter (unseen (keys m)) (first_occurrences (keys es)).
Proof.
  revert m. induction es as [| [k0 v0] es IH]; intros m; simpl.
  - now rewrite app_nil_r.
  - rewrite IH. destruct (in_dec Z.eq_dec k0 (keys m)) as [Hin | Hnotin].
    + rewrite keys_set_present by assumption. f_equal.
      replace (unseen (keys m) k0) with false
        by (symmetry; apply not_true_iff_false; rewrite unseen_true; tauto).
      rewrite filter_filter. apply filter_ext. intros j.
      destruct (unseen (keys m) j) eqn:U; [| reflexivity].
      apply unseen_true in U. simpl. symmetry.
      apply negb_true_iff, Z.eqb_neq. congruence.
    + rewrite keys_set_absent by assumption.
      replace (unseen (keys m) k0) with true
        by (symmetry; now apply unseen_true).
      rewrite <- app_assoc. simpl. do 2 f_equal.
      rewrite filter_filter. apply filter_ext. intros j.
      unfold unseen. rewrite existsb_app. simpl.
      rewrite orb_false_r, negb_orb. reflexivity.
Qed.

End MapFold.

Lemma NoDup_first_occurrences (ids : list Z) : NoDup (first_occurrences ids).
Proof.
  induction ids as [| i ids IH]; simpl; constructor.
  - rewrite filter_In. intros [_ H]. now rewrite Z.eqb_refl in H.
  - now apply NoDup_filter.
Qed.

Lemma In_first_occurrences (ids : list Z) (i : Z) :
  In i (first_occurrences ids) <-> In i ids.
Proof.
  induction ids as [| j ids IH]; simpl; [tauto |].
  rewrite filter_In, IH, negb_true_iff, Z.eqb_neq.
  destruct (Z.eq_dec j i); intuition congruence.
Qed.

(** ** [vinisUnicos] *)

Lemma new_Map_keys (V : Type) (es : list (Z * V)) :
  keys (Api.new_Map es) = first_occurrences (keys es).
Proof.
  unfold Api.new_Map. rewrite fold_set_keys. simpl.
  induction (first_occurrences (keys es)) as [| j l IH]; simpl; congruence.
Qed.

Lemma new_Map_get (V : Type) (es : list (Z * V)) (k : Z) :
  map_get (Api.new_Map es) k = map_get (rev es) k.
Proof.
  unfold Api.new_Map. rewrite fold_set_get. now destruct (map_get (rev es) k).
Qed.

Lemma map_set_entries (m : list (Z * Vinil)) (v : Vinil) :
  Forall (fun e => fst e = id (snd e)) m ->
  Forall (fun e => fst e = id (snd e)) (Api.map_set m (id v) v).
Proof.
  induction m as [| [k0 v0] m IH]; simpl; intros H.
  - repeat constructor.
  - inversion H as [| ? ? H0 H1]; subst. destruct (k0 =? id v)%Z eqn:E.
    + constructor; [apply Z.eqb_eq in E; exact E | assumption].
    + constructor; auto.
Qed.

Lemma new_Map_entries (l : list Vinil) :
  Forall (fun e => fst e = id (snd e)) (Api.new_Map (List.map entry l)).
Proof.
  unfold Api.new_Map.
  enough (G : forall m, Forall (fun e => fst e = id (snd e)) m ->
                        Forall (fun e => fst e = id (snd e))
                               (fold_left (fun m e => Api.map_set m (fst e) (snd e))
                                          (List.map entry l) m))
    by (apply G; constructor).
  induction l as [| v l IH]; intros m Hm; simpl; [assumption |].
  apply IH. now apply map_set_entries.
Qed.

Lemma keys_entries (l : list Vinil) : keys (List.map entry l) = List.map id l.
Proof. unfold keys. rewrite map_map. reflexivity. Qed.

Lemma map_get_entries (l : list Vinil) (i : Z) :
  map_get (List.map entry l) i = first_with_id i l.
Proof.
  induction l as [| v l IH]; simpl; [reflexivity |].
  destruct (id v =? i)%Z; auto.
Qed.

(** The identifiers of the combined result: those of the concatenation, each
    once, in the order of their first occurrence. *)
Lemma vinisUnicos_ids (l : list Vinil) :
  List.map id (Api.vinisUnicos l) = first_occurrences (List.map id l).
Proof.
  unfold Api.vinisUnicos, Api.map_values.
  change (fun v : Vinil => (id v, v)) with entry.
  rewrite <- (keys_entries l), <- new_Map_keys. unfold keys.
  pose proof (new_Map_entries l) as H.
  induction (Api.new_Map (List.map entry l)) as [| e m IH]; simpl; [reflexivity |].
  inversion H; subst. f_equal; auto.
Qed.

Lemma vinisUnicos_NoDup (l : list Vinil) : NoDup (List.map id (Api.vinisUnicos l)).
Proof. rewrite vinisUnicos_ids. apply NoDup_first_occurrences. Qed.

(** The records of the combined result: for each identifier, the last record
    of the concatenation that carries it. *)
Lemma vinisUnicos_In (l : list Vinil) (v : Vinil) :
  In v (Api.vinisUnicos l) <-> last_with_id (id v) l = Some v.
Proof.
  unfold last_with_id. rewrite <- map_get_entries, map_rev, <- new_Map_get.
  unfold Api.vinisUnicos, Api.map_values.
  change (fun v : Vinil => (id v, v)) with entry.
  pose proof (new_Map_entries l) as Hent.
  pose proof (new_Map_keys _ (List.map entry l)) as Hkeys.
  assert (Hnd : NoDup (keys (Api.new_Map (List.map entry l))))
    by (rewrite Hkeys; apply NoDup_first_occurrences).
  clear Hkeys. set (m := Api.new_Map (List.map entry l)) in *. split.
  - intros Hin. apply in_map_iff in Hin as ([k v'] & Hv & Hin). simpl in Hv. subst v'.
    rewrite Forall_forall in Hent. pose proof (Hent _ Hin) as Hk. simpl in Hk.
    subst k. now apply In_map_get.
  - intros Hget. apply map_get_In in Hget.
    change v with (snd (id v, v)). now apply in_map.
Qed.

Lemma map_set_absent (V : Type) (m : list (Z * V)) (k : Z) (v : V) :
  ~ In k (keys m) -> Api.map_set m k v = m ++ [(k, v)].
Proof.
  induction m as [| [k0 v0] m IH]; simpl; [reflexivity |].
  intros Hnotin. destruct (k0 =? k)%Z eqn:E.
  - apply Z.eqb_eq in E. tauto.
  - f_equal. apply IH. tauto.
Qed.

Lemma fold_set_fresh (l : list Vinil) (m : list (Z * Vinil)) :
  NoDup (keys m ++ List.map id l) ->
  fold_left (fun m e => Api.map_set m (fst e) (snd e)) (List.map entry l) m
  = m ++ List.map entry l.
Proof.
  revert m. induction l as [| v l IH]; intros m Hnd; simpl.
  - now rewrite app_nil_r.
  - simpl in Hnd. rewrite map_set_absent.
    + rewrite IH.
      * now rewrite <- app_assoc.
      * unfold keys. rewrite map_app, <- app_assoc. exact Hnd.
    + apply NoDup_remove_2 in Hnd. intros Hin. apply Hnd, in_or_app. now left.
Qed.

(** A list without duplicate identifiers goes through unchanged. *)
Lemma vinisUnicos_unchanged (l : list Vinil) :
  NoDup (List.map id l) -> Api.vinisUnicos l = l.
Proof.
  intros Hnd. unfold Api.vinisUnicos, Api.map_values, Api.new_Map.
  change (fun v : Vinil => (id v, v)) with entry.
  rewrite fold_set_fresh by exact Hnd. simpl.
  rewrite map_map. apply map_id.
Qed.

(** ** Combined search *)

Lemma buscarVinis_run (server : Server) (termo : jsstring) :
  run server (Api.buscarVinis termo)
  = Api.vinisUnicos
      (Api.catch_empty (run server (Api.buscarPorArtista termo))
       ++ Api.catch_empty (run server (Api.buscarPorAlbum termo))).
Proof. unfold Api.buscarVinis. now rewrite !run_bind. Qed.

(** C2, as the claim words it, fails: the artist sub-query answers with a
    record, the title sub-query with a record of the same identifier and
    another title; the combined result holds the second, not the first
    occurrence. *)
Lemma buscarVinis_first_occurrence_dropped :
  run (Sample.search_service (Resolved [Sample.dark_side])
                             (Resolved [Sample.dark_side_retitled]))
      (Api.buscarPorArtista Sample.pink)
  = Resolved [Sample.dark_side]
  /\ run (Sample.search_service (Resolved [Sample.dark_side])
                                (Resolved [Sample.dark_side_retitled]))
         (Api.buscarPorAlbum Sample.pink)
     = Resolved [Sample.dark_side_retitled]
  /\ first_with_id 1 ([Sample.dark_side] ++ [Sample.dark_side_retitled])
     = Some Sample.dark_side
  /\ run (Sample.search_service (Resolved [Sample.dark_side])
                                (Resolved [Sample.dark_side_retitled]))
         (Api.buscarVinis Sample.pink)
     = [Sample.dark_side_retitled]
  /\ ~ In Sample.dark_side
          (run (Sample.search_service (Resolved [Sample.dark_side])
                                      (Resolved [Sample.dark_side_retitled]))
               (Api.buscarVinis Sample.pink)).
Proof.
  repeat split; try (vm_compute; reflexivity).
  vm_compute. intros [H | []]. discriminate H.
Qed.

(** C2 (amended): the combined result of a search is the union of the two
    sub-query results, artist results first, deduplicated by identifier: its
    identifiers are those of the concatenation, each once, in the order of
    their first occurrence, and the record kept for an identifier is its last
    occurrence in the concatenation. *)
Theorem buscarVinis_union_last_occurrence
        (server : Server) (termo : jsstring) (la lb : list Vinil) :
  run server (Api.buscarPorArtista termo) = Resolved la ->
  run server (Api.buscarPorAlbum termo) = Resolved lb ->
  (forall i, In i (List.map id (run server (Api.buscarVinis termo)))
             <-> In i (List.map id (la ++ lb)))
  /\ NoDup (List.map id (run server (Api.buscarVinis termo)))
  /\ List.map id (run server (Api.buscarVinis termo))
     = first_occurrences (List.map id (la ++ lb))
  /\ (forall v, In v (run server (Api.buscarVinis termo))
                <-> last_with_id (id v) (la ++ lb) = Some v).
Proof.
  intros Ha Hb. rewrite buscarVinis_run, Ha, Hb. simpl Api.catch_empty.
  repeat split.
  - rewrite vinisUnicos_ids. apply In_first_occurrences.
  - rewrite vinisUnicos_ids. apply In_first_occurrences.
  - apply vinisUnicos_NoDup.
  - apply vinisUnicos_ids.
  - apply vinisUnicos_In.
  - apply vinisUnicos_In.
Qed.

Lemma buscarVinis_union_last_occurrence_witness :
  run (Sample.search_service (Resolved [Sample.dark_side; Sample.pink_fairies])
                             (Resolved [Sample.dark_side_retitled; Sample.pink_moon]))
      (Api.buscarPorArtista Sample.pink)
  = Resolved [Sample.dark_side; Sample.pink_fairies]
  /\ List.map id
       (run (Sample.search_service
               (Resolved [Sample.dark_side; Sample.pink_fairies])
               (Resolved [Sample.dark_side_retitled; Sample.pink_moon]))
            (Api.buscarVinis Sample.pink))
     = first_occurrences
         (List.map id ([Sample.dark_side; Sample.pink_fairies]
                       ++ [Sample.dark_side_retitled; Sample.pink_moon])).
Proof.
  destruct (buscarVinis_union_last_occurrence
              (Sample.search_service
                 (Resolved [Sample.dark_side; Sample.pink_fairies])
                 (Resolved [Sample.dark_side_retitled; Sample.pink_moon]))
              Sample.pink
              [Sample.dark_side; Sample.pink_fairies]
              [Sample.dark_side_retitled; Sample.pink_moon])
    as (_ & _ & H & _); [vm_compute; reflexivity | vm_compute; reflexivity |].
  split; [vm_compute; reflexivity | exact H].
Defined.

(** A last occurrence is an occurrence with the identifier asked for. *)
Lemma first_with_id_Some (i : Z) (l : list Vinil) (v : Vinil) :
  first_with_id i l = Some v -> In v l /\ id v = i.
Proof.
  unfold first_with_id. intros H. apply find_some in H as [Hin E].
  apply Z.eqb_eq in E. auto.
Qed.

Lemma first_with_id_found (l : list Vinil) (x : Vinil) :
  In x l -> exists v, first_with_id (id x) l = Some v.
Proof.
  unfold first_with_id. intros Hin.
  destruct (find (fun v => (id v =? id x)%Z) l) as [v |] eqn:F; [eauto |].
  exfalso. pose proof (find_none _ _ F x Hin) as E. simpl in E.
  now rewrite Z.eqb_refl in E.
Qed.

(** Where an identifier names one record, every record of the concatenation
    is in the combined result. *)
Lemma vinisUnicos_keeps (l : list Vinil) (x : Vinil) :
  id_determines_record l -> In x l -> In x (Api.vinisUnicos l).
Proof.
  intros Hdet Hin. apply vinisUnicos_In. unfold last_with_id.
  destruct (first_with_id_found (rev l) x) as [v Hv]; [now apply in_rev in Hin |].
  rewrite Hv. f_equal. apply first_with_id_Some in Hv as [Hv Hid].
  apply in_rev in Hv. now apply Hdet.
Qed.


Lemma sample_ids_determine_records :
  id_determines_record ([Sample.dark_side; Sample.pink_fairies]
                        ++ [Sample.pink_moon; Sample.pink_fairies]).
Proof.
  intros x y Hx Hy. simpl in Hx, Hy.
  repeat match goal with
         | H : _ \/ _ |- _ => destruct H as [H | H]
         | H : False |- _ => destruct H
         end; subst; intros E; try reflexivity; discriminate E.
Defined.


(** C6: when one of the two sub-queries fails, it counts as an empty list
    and the combined search still returns the results of the other one
    (deduplicated; unchanged when they carry no duplicate identifier).  When
    both fail the result is the empty list: the search itself never fails. *)
Theorem buscarVinis_degrades
        (server : Server) (termo : jsstring) (e : Error) (l : list Vinil) :
  (run server (Api.buscarPorArtista termo) = Rejected e ->
   run server (Api.buscarPorAlbum termo) = Resolved l ->
   run server (Api.buscarVinis termo) = Api.vinisUnicos l
   /\ (NoDup (List.map id l) -> run server (Api.buscarVinis termo) = l))
  /\ (run server (Api.buscarPorArtista termo) = Resolved l ->
      run server (Api.buscarPorAlbum termo) = Rejected e ->
      run server (Api.buscarVinis termo) = Api.vinisUnicos l
      /\ (NoDup (List.map id l) -> run server (Api.buscarVinis termo) = l))
  /\ (forall e', run server (Api.buscarPorArtista termo) = Rejected e ->
                 run server (Api.buscarPorAlbum termo) = Rejected e' ->
                 run server (Api.buscarVinis termo) = []).
Proof.
  repeat split; intros; rewrite buscarVinis_run;
    repeat match goal with H : run _ _ = _ |- _ => rewrite H; clear H end;
    simpl Api.catch_empty; rewrite ?app_nil_r; simpl;
    auto using vinisUnicos_unchanged.
Qed.

Lemma buscarVinis_degrades_witness :
  run (Sample.search_service (Rejected Sample.unavailable)
                             (Resolved [Sample.pink_moon; Sample.pink_fairies]))
      (Api.buscarVinis Sample.pink)
  = [Sample.pink_moon; Sample.pink_fairies]
  /\ run (Sample.search_service
            (Resolved [Sample.dark_side; Sample.pink_fairies])
            (Rejected Sample.unavailable))
         (Api.buscarVinis Sample.pink)
     = [Sample.dark_side; Sample.pink_fairies].
Proof.
  destruct (buscarVinis_degrades
              (Sample.search_service
                 (Rejected Sample.unavailable)
                 (Resolved [Sample.pink_moon; Sample.pink_fairies]))
              Sample.pink Sample.unavailable
              [Sample.pink_moon; Sample.pink_fairies]) as (Hartist & _ & _).
  destruct (buscarVinis_degrades
              (Sample.search_service
                 (Resolved [Sample.dark_side; Sample.pink_fairies])
                 (Rejected Sample.unavailable))
              Sample.pink Sample.unavailable
              [Sample.dark_side; Sample.pink_fairies]) as (_ & Halbum & _).
  split.
  - apply Hartist; [vm_compute; reflexivity | vm_compute; reflexivity |].
    repeat constructor; simpl; intuition discriminate.
  - apply Halbum; [vm_compute; reflexivity | vm_compute; reflexivity |].
    repeat constructor; simpl; intuition discriminate.
Defined.

(** ** Comparison of two records *)

Lemma eqb_eq (s t : jsstring) : JsString.eqb s t = true <-> s = t.
Proof.
  revert t. induction s as [| c s IH]; intros [| d t]; simpl;
    try (split; [discriminate | discriminate]); [tauto |].
  rewrite andb_true_iff, N.eqb_eq, IH. split.
  - intros [-> ->]. reflexivity.
  - intros [= -> ->]. auto.
Qed.

Lemma eqb_refl (s : jsstring) : JsString.eqb s s = true.
Proof. now apply eqb_eq. Qed.

Lemma string_neq_true (a b : jsstring) : string_neq a b = true <-> a <> b.
Proof.
  unfold string_neq. rewrite negb_true_iff, <- not_true_iff_false, eqb_eq.
  reflexivity.
Qed.

Lemma string_neq_sym (a b : jsstring) : string_neq a b = string_neq b a.
Proof.
  destruct (string_neq a b) eqn:E1, (string_neq b a) eqn:E2; try reflexivity.
  - apply string_neq_true in E1. apply not_true_iff_false in E2.
    exfalso. apply E2, string_neq_true. congruence.
  - apply string_neq_true in E2. apply not_true_iff_false in E1.
    exfalso. apply E1, string_neq_true. congruence.
Qed.

Lemma number_neq_true (a b : Z) : number_neq a b = true <-> a <> b.
Proof. unfold number_neq. now rewrite negb_true_iff, Z.eqb_neq. Qed.

Lemma nullable_neq_true (a b : option jsstring) :
  nullable_neq a b = true <-> a <> b.
Proof.
  destruct a as [x |], b as [y |]; simpl.
  - rewrite string_neq_true. split; congruence.
  - split; [discriminate | reflexivity].
  - split; [discriminate | reflexivity].
  - split; [discriminate | congruence].
Qed.

Lemma nullable_neq_sym (a b : option jsstring) :
  nullable_neq a b = nullable_neq b a.
Proof. destruct a, b; simpl; auto using string_neq_sym. Qed.

Lemma diferencasEntre_sym (A B : Vinil) :
  Api.diferencasEntre A B = Api.diferencasEntre B A.
Proof.
  unfold Api.diferencasEntre, number_neq.
  rewrite (string_neq_sym (artista A)), (string_neq_sym (album A)),
    (string_neq_sym (cor_prensagem A)), (string_neq_sym (midia A)),
    (nullable_neq_sym (selo A)), (Z.eqb_sym (ano A)).
  reflexivity.
Qed.

Lemma diferencasEntre_refl (A : Vinil) :
  Api.diferencasEntre A A = mkDiferencas false false false false false false.
Proof.
  unfold Api.diferencasEntre, string_neq, number_neq.
  rewrite !eqb_refl, Z.eqb_refl. simpl.
  replace (nullable_neq (selo A) (selo A)) with false; [reflexivity |].
  symmetry. apply not_true_iff_false. rewrite nullable_neq_true. tauto.
Qed.

Lemma run_bind_resolved (A B : Type) (server : Server)
      (p : prog (result A)) (f : A -> prog (result B)) :
  run server (bind_resolved p f)
  = match run server p with
    | Resolved a => run server (f a)
    | Rejected e => Rejected e
    end.
Proof.
  unfold bind_resolved. rewrite run_bind. now destruct (run server p).
Qed.

Lemma compararPrensagens_run (server : Server) (idA idB : number) (A B : Vinil) :
  run server (Api.getVinilById idA) = Resolved A ->
  run server (Api.getVinilById idB) = Resolved B ->
  run server (Api.compararPrensagens idA idB)
  = Resolved (mkComparacao A B (Api.diferencasEntre A B)).
Proof.
  intros HA HB. unfold Api.compararPrensagens.
  rewrite run_bind_resolved, HA, run_bind_resolved, HB. reflexivity.
Qed.

(** C10: the difference map of a comparison is symmetric (comparing [B] with
    [A] gives the flags of comparing [A] with [B]) and reflexive (a record
    compared with itself has every flag false), and each flag is true exactly
    when the two records differ in that field. *)
Theorem compararPrensagens_diferencas
        (server : Server) (idA idB : number) (A B : Vinil) :
  run server (Api.getVinilById idA) = Resolved A ->
  run server (Api.getVinilById idB) = Resolved B ->
  run server (Api.compararPrensagens idA idB)
  = Resolved (mkComparacao A B (Api.diferencasEntre A B))
  /\ run server (Api.compararPrensagens idB idA)
     = Resolved (mkComparacao B A (Api.diferencasEntre A B))
  /\ run server (Api.compararPrensagens idA idA)
     = Resolved (mkComparacao A A (mkDiferencas false false false false false false))
  /\ (dif_artista (Api.diferencasEntre A B) = true <-> artista A <> artista B)
  /\ (dif_album (Api.diferencasEntre A B) = true <-> album A <> album B)
  /\ (dif_cor_prensagem (Api.diferencasEntre A B) = true
      <-> cor_prensagem A <> cor_prensagem B)
  /\ (dif_ano (Api.diferencasEntre A B) = true <-> ano A <> ano B)
  /\ (dif_selo (Api.diferencasEntre A B) = true <-> selo A <> selo B)
  /\ (dif_midia (Api.diferencasEntre A B) = true <-> midia A <> midia B).
Proof.
  intros HA HB. split_all.
  - now apply compararPrensagens_run.
  - rewrite (diferencasEntre_sym A B). now apply compararPrensagens_run.
  - rewrite <- (diferencasEntre_refl A). now apply compararPrensagens_run.
  - apply string_neq_true.
  - apply string_neq_true.
  - apply string_neq_true.
  - apply number_neq_true.
  - apply nullable_neq_true.
  - apply string_neq_true.
Qed.

Lemma compararPrensagens_diferencas_witness :
  run Sample.catalogue (Api.compararPrensagens (Int 1) (Int 2))
  = Resolved (mkComparacao Sample.dark_side Sample.pink_moon
                           (mkDiferencas true true true true true false))
  /\ run Sample.catalogue (Api.compararPrensagens (Int 2) (Int 1))
     = Resolved (mkComparacao Sample.pink_moon Sample.dark_side
                              (mkDiferencas true true true true true false)).
Proof.
  destruct (compararPrensagens_diferencas
              Sample.catalogue (Int 1) (Int 2) Sample.dark_side Sample.pink_moon)
    as (Hab & Hba & _); [vm_compute; reflexivity | vm_compute; reflexivity |].
  split; [exact Hab | exact Hba].
Defined.

(** ** The gateway *)



(** ** Rendering *)

(** The escaping step: no angle bracket is left in its output. *)
Lemma escape_unit_inert (c d : N) :
  In d (escape_unit c) -> d <> 60%N /\ d <> 62%N.
Proof.
  unfold escape_unit.
  destruct (c =? 38)%N eqn:E1; [| destruct (c =? 160)%N eqn:E2;
    [| destruct (c =? 60)%N eqn:E3; [| destruct (c =? 62)%N eqn:E4]]];
    intros Hin; vm_compute in Hin;
    repeat match goal with
           | H : _ \/ _ |- _ => destruct H as [H | H]
           | H : False |- _ => destruct H
           end; subst; try (split; discriminate).
  apply N.eqb_neq in E3, E4. auto.
Qed.

Lemma escapeHTML_inert (text : jsstring) (d : N) :
  In d (escapeHTML text) -> d <> 60%N /\ d <> 62%N.
Proof.
  unfold escapeHTML. destruct (negb (truthy text)); [intros [] |].
  rewrite in_flat_map. intros (c & _ & Hin). now apply escape_unit_inert in Hin.
Qed.

(** C1, at the failing input: a record titled [<script>] is rendered, as a
    card and as a detail panel, with the title copied as it is into the [alt]
    attribute of the image; in the panel the same title is escaped where it
    is the text of the heading. *)
Theorem title_reaches_markup_unescaped (lower : jsstring -> jsstring) :
  (exists card,
      createVinilCard lower Sample.script_title = Normal card
      /\ includes (innerHTML card) (tpl "alt=`<script>`") = true)
  /\ (exists html,
         createVinilDetailsHTML Sample.script_title = Normal html
         /\ includes html (tpl "alt=`<script>`") = true
         /\ includes html
                     (tpl "<h2 class=`detalhes-vinil-title`>&lt;script&gt;</h2>")
            = true).
Proof.
  split.
  - eexists. split; vm_compute; reflexivity.
  - eexists. split; [vm_compute; reflexivity |].
    split; vm_compute; reflexivity.
Qed.

(** C8: a rendering call whose list is absent or empty shows the "no
    results" state with no card, and raises nothing: no error state. *)
Theorem renderVinisGrid_empty (lower : jsstring -> jsstring) (dom : Dom) :
  (snd (renderVinisGrid lower None dom) = None
   /\ shows_no_results dom (fst (renderVinisGrid lower None dom)))
  /\ (snd (renderVinisGrid lower (Some []) dom) = None
      /\ shows_no_results dom (fst (renderVinisGrid lower (Some []) dom))).
Proof.
  unfold shows_no_results. repeat split.
Qed.

(** An empty list answered by the service ends in the same state. *)
Lemma loadVinis_empty_answer
      (lower : jsstring -> jsstring) (server : Server) (app : App) :
  run server Api.getVinis = Resolved [] ->
  shows_no_results (dom app) (dom (run server (loadVinis lower app))).
Proof.
  intros H. unfold loadVinis. rewrite run_bind, H. unfold shows_no_results.
  repeat split.
Qed.

(** For every record that has a card, the markup of the card carries the
    title as it is, between the quotes of the [alt] attribute. *)
Local Opaque tpl js.

Lemma createVinilCard_alt_is_title
      (lower : jsstring -> jsstring) (vinil : Vinil) (card : Card) :
  createVinilCard lower vinil = Normal card ->
  exists before after,
    innerHTML card = before ++ tpl "` alt=`" ++ album vinil ++ after.
Proof.
  unfold createVinilCard.
  destruct (bgStyleOf (cor_prensagem vinil)) as [[bgStyle isGradient] | e];
    [| discriminate].
  match goal with
  | |- match ?img with Normal _ => _ | Throw _ => _ end = _ -> _ =>
    destruct img as [imgUrl | e]; [| discriminate]
  end.
  intros [= <-]. cbn [innerHTML].
  eexists (_ ++ imgUrl), _. rewrite <- app_assoc. reflexivity.
Qed.

Local Transparent tpl js.

(** ** Statistics *)

(** C4, as the claim words it, fails: with the statistics of three records
    on the page and a service that cannot be reached, [loadStats] leaves the
    panel with other contents than it had. *)
Lemma loadStats_failure_replaces_stats :
  run Sample.offline Api.getStatsCores = Rejected Sample.unavailable
  /\ stats_container (dom (run Sample.offline (loadStats Sample.app_with_stats)))
     <> stats_container (dom Sample.app_with_stats).
Proof.
  split; [reflexivity |].
  intros H. apply eqb_eq in H. vm_compute in H. discriminate H.
Qed.

(** C4 (amended): when the statistics fetch fails, an error notification is
    shown and the panel is not blank: it holds the loading placeholder that
    replaced the previous statistics when the fetch was initiated. *)
Theorem loadStats_failure (server : Server) (app : App) (e : Error) :
  run server Api.getStatsCores = Rejected e ->
  notification (dom (run server (loadStats app)))
  = Some (notificationElement (js "Não foi possível carregar as estatísticas.")
                              Error_)
  /\ stats_container (dom (run server (loadStats app)))
     = tpl "<div class=`stats-loading`>Carregando estatísticas...</div>"
  /\ stats_container (dom (run server (loadStats app))) <> [].
Proof.
  intros H. unfold loadStats. rewrite run_bind, H.
  split; [reflexivity | split; [reflexivity |]].
  vm_compute. discriminate.
Qed.

Lemma loadStats_failure_witness :
  shows_error (dom (run Sample.offline (loadStats Sample.app_with_stats)))
  /\ stats_container (dom (run Sample.offline (loadStats Sample.app_with_stats)))
     = tpl "<div class=`stats-loading`>Carregando estatísticas...</div>".
Proof.
  destruct (loadStats_failure Sample.offline Sample.app_with_stats
                              Sample.unavailable) as (Hn & Hc & _);
    [reflexivity |].
  split; [eexists; exact Hn | exact Hc].
Defined.

(** ** Comparison modal *)


Lemma number_truthy_false (n : number) :
  number_truthy n = false <-> n = NaN \/ n = Int 0.
Proof.
  destruct n as [| z]; simpl.
  - intuition.
  - rewrite negb_false_iff, Z.eqb_eq. split.
    + intros ->. now right.
    + intros [H | H]; [discriminate H | now injection H].
Qed.



(** ** Form submission *)

Lemma truthy_false (s : jsstring) : truthy s = false <-> s = [].
Proof. destruct s; simpl; split; congruence. Qed.

(** Closes a case in which the submission is rejected without a request,
    leaving the facts that contradict a valid form to be used. *)
Ltac rejected :=
  split;
  [ intros _; split; [reflexivity | eexists; reflexivity]
  | intros y Hy Hrange HA HAl HC HM; exfalso ].



(* ================================================================== *)
(** * Further properties of the code *)
(* ================================================================== *)

(** ** Escaping *)

Lemma escape_unit_plain (c : N) : needs_escaping c = false -> escape_unit c = [c].
Proof.
  unfold needs_escaping, escape_unit. intros H.
  repeat (apply orb_false_iff in H; destruct H as [H ?]).
  repeat match goal with E : _ = false |- _ => rewrite E; clear E end.
  reflexivity.
Qed.

Lemma escape_unit_nonempty (c : N) : (1 <= List.length (escape_unit c))%nat.
Proof.
  unfold escape_unit.
  destruct (c =? 38)%N; [vm_compute; lia |].
  destruct (c =? 160)%N; [vm_compute; lia |].
  destruct (c =? 60)%N; [vm_compute; lia |].
  destruct (c =? 62)%N; [vm_compute; lia | simpl; lia].
Qed.

(** X1: the escaping step leaves no angle bracket and no no-break space in
    its output, never shortens a text, and returns unchanged a text that
    holds none of the four characters it rewrites. *)
Theorem escapeHTML_text (text : jsstring) :
  (forall d, In d (escapeHTML text) -> d <> 60%N /\ d <> 62%N /\ d <> 160%N)
  /\ (List.length text <= List.length (escapeHTML text))%nat
  /\ (forallb (fun c => negb (needs_escaping c)) text = true ->
      escapeHTML text = text).
Proof.
  unfold escapeHTML. destruct text as [| c0 text0]; cbn [truthy negb].
  { split_all; [intros d [] | reflexivity | reflexivity]. }
  set (text := c0 :: text0). clearbody text. clear c0 text0. split_all.
  - intros d. rewrite in_flat_map. intros (c & _ & Hin). unfold escape_unit in Hin.
    destruct (c =? 38)%N; [| destruct (c =? 160)%N eqn:E2;
      [| destruct (c =? 60)%N eqn:E3; [| destruct (c =? 62)%N eqn:E4]]];
      try (vm_compute in Hin;
           repeat match goal with
                  | H : _ \/ _ |- _ => destruct H as [H | H]
                  | H : False |- _ => destruct H
                  end; subst; split_all; discriminate).
    destruct Hin as [<- | []]. apply N.eqb_neq in E2, E3, E4. auto.
  - induction text as [| c text IH]; simpl; [lia |].
    rewrite length_app. pose proof (escape_unit_nonempty c). lia.
  - induction text as [| c text IH]; simpl; [reflexivity |].
    rewrite andb_true_iff, negb_true_iff. intros [Hc Hrest].
    rewrite escape_unit_plain by assumption. simpl. f_equal. auto.
Qed.

Lemma escapeHTML_text_witness :
  escapeHTML (js "Pink Floyd") = js "Pink Floyd".
Proof.
  destruct (escapeHTML_text (js "Pink Floyd")) as (_ & _ & Hplain).
  apply Hplain. vm_compute. reflexivity.
Defined.

(** ** Cards *)

Lemma corMap_own (cor bgStyle : jsstring) :
  corMap cor = Some bgStyle ->
  existsb (JsString.eqb cor) object_prototype_keys = false.
Proof.
  unfold corMap.
  destruct (JsString.eqb cor (js "Preto")) eqn:E1;
    [apply eqb_eq in E1; subst; reflexivity |].
  destruct (JsString.eqb cor (js "Colorido")) eqn:E2;
    [apply eqb_eq in E2; subst; reflexivity |].
  destruct (JsString.eqb cor (js "Transparente")) eqn:E3;
    [apply eqb_eq in E3; subst; reflexivity |].
  destruct (JsString.eqb cor (js "Roxo")) eqn:E4;
    [apply eqb_eq in E4; subst; reflexivity | discriminate].
Qed.

Lemma bgStyleOf_Normal (cor : jsstring) :
  (exists r, bgStyleOf cor = Normal r)
  <-> existsb (JsString.eqb cor) object_prototype_keys = false.
Proof.
  unfold bgStyleOf. destruct (corMap cor) as [bgStyle |] eqn:M.
  - split; [intros _; now apply corMap_own in M | eauto].
  - destruct (existsb (JsString.eqb cor) object_prototype_keys).
    + split; [intros [r H]; discriminate H | discriminate].
    + split; eauto.
Qed.

(** X2: a card can be built for a record exactly when its colour is not the
    name of a property inherited from [Object.prototype] and either the
    record has a cover or the first fifteen code units of its title can be
    URI-encoded (they hold no lone surrogate); otherwise [createVinilCard]
    throws. *)
Theorem createVinilCard_builds (lower : jsstring -> jsstring) (vinil : Vinil) :
  (exists card, createVinilCard lower vinil = Normal card)
  <-> existsb (JsString.eqb (cor_prensagem vinil)) object_prototype_keys = false
      /\ (has_cover vinil = true
          \/ exists encoded,
              encodeURIComponent (substring0 (album vinil) 15) = Some encoded).
Proof.
  rewrite <- bgStyleOf_Normal. unfold createVinilCard, has_cover.
  destruct (bgStyleOf (cor_prensagem vinil)) as [[bgStyle isGradient] | e].
  2: { split; [intros [c H]; discriminate H | intros [[r H] _]; discriminate H]. }
  destruct (match capa vinil with Some c => truthy c | None => false end) eqn:C.
  - split; [eauto |]. intros _.
    destruct (startsWith _ (js "/uploads")); eexists; reflexivity.
  - destruct (encodeURIComponent (substring0 (album vinil) 15)) as [enc |].
    + split; [eauto | intros _; eexists; reflexivity].
    + split; [intros [c H]; discriminate H |].
      intros [_ [H | [enc H]]]; discriminate H.
Qed.

Lemma createVinilCard_builds_witness :
  (exists card, createVinilCard Sample.lower Sample.pink_moon = Normal card)
  /\ ~ (exists card, createVinilCard Sample.lower Sample.odd_colour = Normal card).
Proof.
  split.
  - apply (createVinilCard_builds Sample.lower Sample.pink_moon).
    split; [vm_compute; reflexivity |].
    right. eexists. vm_compute. reflexivity.
  - intros H. apply (createVinilCard_builds Sample.lower Sample.odd_colour) in H.
    destruct H as [H _]. vm_compute in H. discriminate H.
Defined.

(** ** The grid *)

Lemma with_vinis_grid_twice (a b : list Card) (d : Dom) :
  with_vinis_grid a (with_vinis_grid b d) = with_vinis_grid a d.
Proof. reflexivity. Qed.

(** The loop of [renderVinisGrid], when every card can be built. *)
Lemma appendCards_all (lower : jsstring -> jsstring)
      (vinis : list Vinil) (cards : list Card) (d : Dom) :
  build_all lower vinis = Some cards ->
  appendCards lower vinis d = (with_vinis_grid (vinis_grid d ++ cards) d, None).
Proof.
  revert cards d. induction vinis as [| v vinis IH]; intros cards d; simpl.
  - intros [= <-]. rewrite app_nil_r. now destruct d.
  - destruct (createVinilCard lower v) as [card | e]; [| discriminate].
    destruct (build_all lower vinis) as [rest |]; [| discriminate].
    intros [= <-]. rewrite (IH rest) by reflexivity.
    rewrite with_vinis_grid_twice. cbn [vinis_grid with_vinis_grid].
    now rewrite <- app_assoc.
Qed.

(** The loop of [renderVinisGrid], when a card cannot be built. *)
Lemma appendCards_stops (lower : jsstring -> jsstring)
      (before : list Vinil) (v : Vinil) (after : list Vinil)
      (cards : list Card) (e : Error) (d : Dom) :
  build_all lower before = Some cards ->
  createVinilCard lower v = Throw e ->
  appendCards lower (before ++ v :: after) d
  = (with_vinis_grid (vinis_grid d ++ cards) d, Some e).
Proof.
  revert cards d. induction before as [| b before IH]; intros cards d; simpl.
  - intros [= <-] ->. rewrite app_nil_r. now destruct d.
  - destruct (createVinilCard lower b) as [card | e']; [| discriminate].
    destruct (build_all lower before) as [rest |]; [| discriminate].
    intros [= <-] Hv. rewrite (IH rest) by auto.
    rewrite with_vinis_grid_twice. cbn [vinis_grid with_vinis_grid].
    now rewrite <- app_assoc.
Qed.

Lemma build_all_cards (lower : jsstring -> jsstring)
      (vinis : list Vinil) (cards : list Card) :
  build_all lower vinis = Some cards ->
  List.map vinilId cards = List.map (fun v => numberToString (Int (id v))) vinis
  /\ List.map abre_detalhes cards = List.map id vinis.
Proof.
  revert cards. induction vinis as [| v vinis IH]; intros cards; simpl.
  - intros [= <-]. auto.
  - destruct (createVinilCard lower v) as [card | e] eqn:C; [| discriminate].
    destruct (build_all lower vinis) as [rest |]; [| discriminate].
    intros [= <-]. destruct (IH rest eq_refl) as [IH1 IH2]. simpl.
    rewrite IH1, IH2. unfold createVinilCard in C.
    destruct (bgStyleOf (cor_prensagem v)) as [[bgStyle isGradient] | e];
      [| discriminate].
    match type of C with
    | match ?img with Normal _ => _ | Throw _ => _ end = _ =>
      destruct img as [imgUrl | e]; [| discriminate]
    end.
    injection C as <-. auto.
Qed.

Lemma renderVinisGrid_one_card
      (lower : jsstring -> jsstring) (vinis : list Vinil) (cards : list Card)
      (dom : Dom) :
  vinis <> [] ->
  build_all lower vinis = Some cards ->
  snd (renderVinisGrid lower (Some vinis) dom) = None
  /\ vinis_grid (fst (renderVinisGrid lower (Some vinis) dom)) = cards.
Proof.
  intros Hne Hall. unfold renderVinisGrid.
  destruct vinis as [| v vinis]; [contradiction |].
  cbn [is_empty List.length Nat.eqb elements].
  rewrite (appendCards_all lower (v :: vinis) cards _ Hall). split; reflexivity.
Qed.

(** X3: when every record of a non-empty list has a card, [renderVinisGrid]
    throws nothing and leaves in the grid exactly one card per record, in the
    order of the list, each carrying the identifier of its record (in its
    data set and for the detail modal it opens); the "no results"
    placeholder and the loading indicator are hidden. *)
Theorem renderVinisGrid_one_card_per_record
        (lower : jsstring -> jsstring) (vinis : list Vinil) (cards : list Card)
        (dom : Dom) :
  vinis <> [] ->
  build_all lower vinis = Some cards ->
  snd (renderVinisGrid lower (Some vinis) dom) = None
  /\ vinis_grid (fst (renderVinisGrid lower (Some vinis) dom)) = cards
  /\ List.length cards = List.length vinis
  /\ List.map vinilId cards
     = List.map (fun v => numberToString (Int (id v))) vinis
  /\ List.map abre_detalhes cards = List.map id vinis
  /\ no_results (fst (renderVinisGrid lower (Some vinis) dom)) = DisplayNone
  /\ loading (fst (renderVinisGrid lower (Some vinis) dom)) = DisplayNone.
Proof.
  intros Hne Hall. destruct (build_all_cards lower vinis cards Hall) as [Hids Hopen].
  unfold renderVinisGrid. destruct vinis as [| v vinis]; [contradiction |].
  cbn [is_empty List.length Nat.eqb elements].
  rewrite (appendCards_all lower (v :: vinis) cards _ Hall).
  split_all; try reflexivity; try assumption.
  rewrite <- (length_map vinilId), Hids. apply length_map.
Qed.

Lemma renderVinisGrid_one_card_per_record_witness :
  List.map vinilId
           (vinis_grid
              (fst (renderVinisGrid Sample.lower
                                    (Some [Sample.dark_side; Sample.pink_moon])
                                    Sample.blank_dom)))
  = [js "1"; js "2"].
Proof.
  destruct (renderVinisGrid_one_card_per_record
              Sample.lower [Sample.dark_side; Sample.pink_moon]
              (vinis_grid
                 (fst (renderVinisGrid Sample.lower
                                       (Some [Sample.dark_side; Sample.pink_moon])
                                       Sample.blank_dom)))
              Sample.blank_dom) as (_ & _ & _ & Hids & _).
  - discriminate.
  - vm_compute. reflexivity.
  - rewrite Hids. vm_compute. reflexivity.
Defined.

(** X4: when a record of the list has no card, [renderVinisGrid] stops
    there with the exception: the cards of the records before it stay in
    the grid, the records after it are not rendered, and the counters at the
    top of the page are left as they were. *)
Theorem renderVinisGrid_stops_at_failure
        (lower : jsstring -> jsstring) (before : list Vinil) (v : Vinil)
        (after : list Vinil) (cards : list Card) (e : Error) (dom : Dom) :
  build_all lower before = Some cards ->
  createVinilCard lower v = Throw e ->
  snd (renderVinisGrid lower (Some (before ++ v :: after)) dom) = Some e
  /\ vinis_grid (fst (renderVinisGrid lower (Some (before ++ v :: after)) dom))
     = cards
  /\ mini_stats (fst (renderVinisGrid lower (Some (before ++ v :: after)) dom))
     = mini_stats dom
  /\ no_results (fst (renderVinisGrid lower (Some (before ++ v :: after)) dom))
     = DisplayNone.
Proof.
  intros Hall Hv. unfold renderVinisGrid.
  replace (is_empty (Some (before ++ v :: after))) with false
    by (now destruct before).
  cbn [elements]. rewrite (appendCards_stops lower before v after cards e _ Hall Hv).
  split_all; reflexivity.
Qed.

Lemma renderVinisGrid_stops_at_failure_witness :
  List.length
    (vinis_grid
       (fst (renderVinisGrid Sample.lower
                             (Some ([Sample.dark_side]
                                    ++ Sample.odd_colour :: [Sample.pink_moon]))
                             Sample.blank_dom)))
  = 1%nat
  /\ snd (renderVinisGrid Sample.lower
                          (Some ([Sample.dark_side]
                                 ++ Sample.odd_colour :: [Sample.pink_moon]))
                          Sample.blank_dom)
     = Some (notAFunction (js "bgStyle.includes")).
Proof.
  destruct (renderVinisGrid_stops_at_failure
              Sample.lower [Sample.dark_side] Sample.odd_colour [Sample.pink_moon]
              (vinis_grid
                 (fst (renderVinisGrid Sample.lower (Some [Sample.dark_side])
                                       Sample.blank_dom)))
              (notAFunction (js "bgStyle.includes")) Sample.blank_dom)
    as (Hthrown & Hgrid & _).
  - vm_compute. reflexivity.
  - vm_compute. reflexivity.
  - split; [rewrite Hgrid; vm_compute; reflexivity | exact Hthrown].
Defined.

Lemma appendCards_outside (lower : jsstring -> jsstring)
      (vinis : list Vinil) (d : Dom) :
  outside_grid (fst (appendCards lower vinis d)) = outside_grid d.
Proof.
  revert d. induction vinis as [| v vinis IH]; intros d; simpl; [reflexivity |].
  destruct (createVinilCard lower v); [| reflexivity]. now rewrite IH.
Qed.

Lemma renderVinisGrid_keeps_outside
      (lower : jsstring -> jsstring) (vinis : option (list Vinil)) (dom : Dom) :
  outside_grid (fst (renderVinisGrid lower vinis dom)) = outside_grid dom.
Proof.
  unfold renderVinisGrid. cbv zeta. destruct (is_empty vinis) eqn:E; [reflexivity |].
  set (d0 := with_no_results DisplayNone _).
  pose proof (appendCards_outside lower (elements vinis) d0) as H.
  destruct (appendCards lower (elements vinis) d0) as [d' [e |]]; cbn [fst] in *.
  - rewrite H. reflexivity.
  - transitivity (outside_grid d'); [| rewrite H; reflexivity].
    unfold updateMiniStats. rewrite E. reflexivity.
Qed.

(** X5: whatever the list, and whether or not it throws, [renderVinisGrid]
    touches nothing but the grid, its placeholder, the loading indicator and
    the counters: the statistics panel, the detail panel, the comparison
    fields and result, the notification and the modals are as before. *)
Theorem renderVinisGrid_outside_untouched
        (lower : jsstring -> jsstring) (vinis : option (list Vinil)) (dom : Dom) :
  outside_grid (fst (renderVinisGrid lower vinis dom)) = outside_grid dom.
Proof. apply renderVinisGrid_keeps_outside. Qed.

(** ** Loading the list *)

Lemma appendCards_loading (lower : jsstring -> jsstring)
      (vinis : list Vinil) (d : Dom) :
  loading (fst (appendCards lower vinis d)) = loading d.
Proof.
  revert d. induction vinis as [| v vinis IH]; intros d; simpl; [reflexivity |].
  destruct (createVinilCard lower v); [| reflexivity]. now rewrite IH.
Qed.

Lemma renderVinisGrid_hides_loading
      (lower : jsstring -> jsstring) (vinis : option (list Vinil)) (d : Dom) :
  loading (fst (renderVinisGrid lower vinis d)) = DisplayNone.
Proof.
  unfold renderVinisGrid. cbv zeta. destruct (is_empty vinis) eqn:E; [reflexivity |].
  set (d0 := with_no_results DisplayNone _).
  pose proof (appendCards_loading lower (elements vinis) d0) as H.
  destruct (appendCards lower (elements vinis) d0) as [d' [e |]]; cbn [fst] in *.
  - exact H.
  - unfold updateMiniStats. rewrite E. exact H.
Qed.

(** What [loadVinis] returns, by the way the list request settles. *)
Lemma loadVinis_run (lower : jsstring -> jsstring) (server : Server) (app : App) :
  run server (loadVinis lower app)
  = match run server Api.getVinis with
    | Rejected _ => loadVinis_failed (on_dom showLoading app)
    | Resolved vinis =>
      let rendered :=
        renderVinisGrid lower (Some vinis)
                        (dom (with_currentVinis vinis (on_dom showLoading app))) in
      match snd rendered with
      | None =>
        with_dom (fst rendered) (with_currentVinis vinis (on_dom showLoading app))
      | Some _ =>
        loadVinis_failed
          (with_dom (fst rendered)
                    (with_currentVinis vinis (on_dom showLoading app)))
      end
    end.
Proof.
  unfold loadVinis. rewrite run_bind.
  destruct (run server Api.getVinis) as [vinis | e]; [| reflexivity].
  cbv zeta.
  destruct (renderVinisGrid lower (Some vinis) _) as [d [e |]]; reflexivity.
Qed.

Lemma loadVinis_trace (lower : jsstring -> jsstring) (server : Server) (app : App) :
  trace server (loadVinis lower app) = [list_request].
Proof.
  unfold loadVinis. rewrite trace_bind. simpl trace at 1.
  destruct (run server Api.getVinis) as [vinis | e]; [| reflexivity].
  cbv zeta.
  destruct (renderVinisGrid lower (Some vinis) _) as [d [e |]]; reflexivity.
Qed.

(** X6: [loadVinis] issues exactly the list request and, however it
    settles, ends with the loading indicator hidden and the form untouched.
    When the request fails, the error notification is shown, the grid is
    empty and the cached list is the one held before; when it succeeds, the
    cached list is the answer. *)
Theorem loadVinis_outcomes
        (lower : jsstring -> jsstring) (server : Server) (app : App) :
  trace server (loadVinis lower app) = [list_request]
  /\ loading (dom (run server (loadVinis lower app))) = DisplayNone
  /\ form (run server (loadVinis lower app)) = form app
  /\ (forall e,
         run server Api.getVinis = Rejected e ->
         shows_error (dom (run server (loadVinis lower app)))
         /\ vinis_grid (dom (run server (loadVinis lower app))) = []
         /\ currentVinis (appState (run server (loadVinis lower app)))
            = currentVinis (appState app))
  /\ (forall vinis,
         run server Api.getVinis = Resolved vinis ->
         currentVinis (appState (run server (loadVinis lower app))) = vinis).
Proof.
  split; [apply loadVinis_trace |].
  rewrite loadVinis_run.
  destruct (run server Api.getVinis) as [vinis | e]; cbv zeta.
  - pose proof (renderVinisGrid_hides_loading
                  lower (Some vinis)
                  (dom (with_currentVinis vinis (on_dom showLoading app)))) as L.
    destruct (renderVinisGrid lower (Some vinis) _) as [d [e |]];
      cbn [fst snd] in *; split_all; try reflexivity; try assumption;
      try (intros e' H; discriminate H); intros v [= <-]; reflexivity.
  - split_all; try reflexivity.
    + intros e' _. split_all; [eexists; reflexivity | reflexivity | reflexivity].
    + intros v H. discriminate H.
Qed.

Lemma loadVinis_outcomes_witness :
  shows_error (dom (run Sample.offline (loadVinis Sample.lower Sample.blank_app)))
  /\ currentVinis (appState (run Sample.catalogue
                                  (loadVinis Sample.lower Sample.blank_app)))
     = [Sample.dark_side; Sample.pink_moon; Sample.pink_fairies].
Proof.
  destruct (loadVinis_outcomes Sample.lower Sample.offline Sample.blank_app)
    as (_ & _ & _ & Hfail & _).
  destruct (loadVinis_outcomes Sample.lower Sample.catalogue Sample.blank_app)
    as (_ & _ & _ & _ & Hok).
  split.
  - apply (Hfail Sample.unavailable). reflexivity.
  - apply Hok. reflexivity.
Defined.

(** ** Search requests *)

Lemma hex_digit_safe (d : N) : breaks_query (hex_digit d) = false.
Proof.
  unfold hex_digit, breaks_query. destruct (d <? 10)%N eqn:E.
  - apply N.ltb_lt in E.
    repeat (apply orb_false_iff; split); apply N.eqb_neq; lia.
  - apply N.ltb_ge in E.
    repeat (apply orb_false_iff; split); apply N.eqb_neq; lia.
Qed.

Lemma percent_codepoint_safe (cp c : N) :
  In c (percent_codepoint cp) -> breaks_query c = false.
Proof.
  unfold percent_codepoint. rewrite in_flat_map. intros (b & _ & Hin).
  unfold percent in Hin. simpl in Hin.
  destruct Hin as [<- | [<- | [<- | []]]];
    [reflexivity | apply hex_digit_safe | apply hex_digit_safe].
Qed.

Lemma uri_unreserved_safe (c : N) : uri_unreserved c = true -> breaks_query c = false.
Proof.
  unfold uri_unreserved, is_alnum, breaks_query. intros H.
  repeat match goal with
         | |- (_ || _) = false => apply orb_false_iff; split
         end; apply N.eqb_neq; intros ->; vm_compute in H; discriminate H.
Qed.

(** The output of [encodeURIComponent] holds none of the characters that
    break a query. *)
Lemma encodeURIComponent_safe (s encoded : jsstring) :
  encodeURIComponent s = Some encoded ->
  forall c, In c encoded -> breaks_query c = false.
Proof.
  remember (List.length s) as n eqn:Hn. revert s encoded Hn.
  induction n as [n IH] using lt_wf_ind. intros s encoded Hn.
  destruct s as [| c0 r]; simpl.
  { intros [= <-] c []. }
  destruct (uri_unreserved c0) eqn:U.
  { destruct (encodeURIComponent r) as [enc |] eqn:E; [| discriminate].
    intros [= <-] c [<- | Hin]; [now apply uri_unreserved_safe |].
    apply (IH (List.length r)) with (s := r) (encoded := enc); subst; simpl; auto. }
  destruct (is_low_surrogate c0); [discriminate |].
  destruct (is_high_surrogate c0).
  - destruct r as [| d r']; [discriminate |].
    destruct (is_low_surrogate d); [| discriminate].
    destruct (encodeURIComponent r') as [enc |] eqn:E; [| discriminate].
    intros [= <-] c Hin. apply in_app_or in Hin as [Hin | Hin].
    + now apply percent_codepoint_safe in Hin.
    + apply (IH (List.length r')) with (s := r') (encoded := enc);
        subst; simpl; auto.
  - destruct (encodeURIComponent r) as [enc |] eqn:E; [| discriminate].
    intros [= <-] c Hin. apply in_app_or in Hin as [Hin | Hin].
    + now apply percent_codepoint_safe in Hin.
    + apply (IH (List.length r)) with (s := r) (encoded := enc);
        subst; simpl; auto.
Qed.

(** X7: a combined search for a term that can be URI-encoded issues exactly
    two requests, the artist search and then the title search, each with the
    encoded term as the only parameter: the encoded term holds no space,
    quote, [#], [&], [/], [<], [=], [>] or [?], so the term cannot add a
    parameter or change the path.  For a term that cannot be encoded (a lone
    surrogate) no request is issued and the result is the empty list. *)
Theorem buscarVinis_requests (server : Server) (termo : jsstring) :
  (forall encoded,
      encodeURIComponent termo = Some encoded ->
      trace server (Api.buscarVinis termo)
      = [mkRequest (js "/vinis/search?artista=" ++ encoded) GET None;
         mkRequest (js "/vinis/search?album=" ++ encoded) GET None]
      /\ forall c, In c encoded -> breaks_query c = false)
  /\ (encodeURIComponent termo = None ->
      trace server (Api.buscarVinis termo) = []
      /\ run server (Api.buscarVinis termo) = []).
Proof.
  unfold Api.buscarVinis, Api.buscarPorArtista, Api.buscarPorAlbum. split.
  - intros encoded E. rewrite E. split; [reflexivity |].
    now apply encodeURIComponent_safe with (s := termo).
  - intros E. rewrite E. split; reflexivity.
Qed.

Lemma buscarVinis_requests_witness :
  trace Sample.catalogue (Api.buscarVinis (js "pink floyd&x=1"))
  = [mkRequest (js "/vinis/search?artista=pink%20floyd%26x%3D1") GET None;
     mkRequest (js "/vinis/search?album=pink%20floyd%26x%3D1") GET None]
  /\ trace Sample.catalogue (Api.buscarVinis [0xD83D%N]) = [].
Proof.
  destruct (buscarVinis_requests Sample.catalogue (js "pink floyd&x=1"))
    as (Hok & _).
  destruct (buscarVinis_requests Sample.catalogue [0xD83D%N]) as (_ & Hbad).
  split.
  - destruct (Hok (js "pink%20floyd%26x%3D1")) as (Htrace & _);
      [vm_compute; reflexivity |].
    rewrite Htrace. vm_compute. reflexivity.
  - apply Hbad. vm_compute. reflexivity.
Defined.

(** X8: the coordinator's search reloads the whole list, and clears the
    searching flag, for a term of fewer than two code units; for a longer
    term it issues the requests of the combined search, sets the flag, caches
    the combined result and ends with the loading indicator hidden. *)
Theorem buscarVinis_by_length
        (lower : jsstring -> jsstring) (server : Server) (termo : jsstring)
        (app : App) :
  ((List.length termo < 2)%nat ->
   trace server (Main.buscarVinis lower termo app) = [list_request]
   /\ isSearching (appState (run server (Main.buscarVinis lower termo app)))
      = false)
  /\ ((2 <= List.length termo)%nat ->
      trace server (Main.buscarVinis lower termo app)
      = trace server (Api.buscarVinis termo)
      /\ isSearching (appState (run server (Main.buscarVinis lower termo app)))
         = true
      /\ currentVinis (appState (run server (Main.buscarVinis lower termo app)))
         = run server (Api.buscarVinis termo)
      /\ loading (dom (run server (Main.buscarVinis lower termo app)))
         = DisplayNone).
Proof.
  unfold Main.buscarVinis. split; intros Hlen.
  - replace (List.length termo <? 2)%nat with true
      by (symmetry; now apply Nat.ltb_lt).
    rewrite trace_bind, run_bind, loadVinis_trace. split; reflexivity.
  - replace (List.length termo <? 2)%nat with false
      by (symmetry; now apply Nat.ltb_ge).
    cbv zeta. rewrite trace_bind, run_bind.
    set (vinis := run server (Api.buscarVinis termo)).
    set (app1 := with_currentVinis vinis _).
    pose proof (renderVinisGrid_hides_loading lower (Some vinis) (dom app1)) as L.
    destruct (renderVinisGrid lower (Some vinis) (dom app1)) as [d [e |]];
      cbn [fst] in L; cbn [trace run]; rewrite app_nil_r; split_all;
      try reflexivity; exact L.
Qed.

Lemma buscarVinis_by_length_witness :
  trace Sample.catalogue (Main.buscarVinis Sample.lower (js "p") Sample.blank_app)
  = [list_request]
  /\ isSearching
       (appState (run Sample.catalogue
                      (Main.buscarVinis Sample.lower Sample.pink Sample.blank_app)))
     = true.
Proof.
  destruct (buscarVinis_by_length Sample.lower Sample.catalogue (js "p")
                                  Sample.blank_app) as (Hshort & _).
  destruct (buscarVinis_by_length Sample.lower Sample.catalogue Sample.pink
                                  Sample.blank_app) as (_ & Hlong).
  split.
  - apply Hshort. vm_compute. lia.
  - apply Hlong. vm_compute. lia.
Defined.

(** ** Gateway *)

Lemma trace_bind_resolved (A B : Type) (server : Server)
      (p : prog (result A)) (f : A -> prog (result B)) :
  trace server (bind_resolved p f)
  = trace server p
    ++ match run server p with
       | Resolved a => trace server (f a)
       | Rejected _ => []
       end.
Proof.
  unfold bind_resolved. rewrite trace_bind. now destruct (run server p).
Qed.

(** X9: the gateway's comparison fetches the first record and, only once it
    has it, the second: when the first fetch fails the second is never
    issued and the comparison fails with that error; when the second fails
    the comparison fails with its error; no difference map is built unless
    both records arrive. *)
Theorem compararPrensagens_sequence (server : Server) (idA idB : number) :
  (forall e,
      run server (Api.getVinilById idA) = Rejected e ->
      run server (Api.compararPrensagens idA idB) = Rejected e
      /\ trace server (Api.compararPrensagens idA idB)
         = [mkRequest (js "/vinis/" ++ numberToString idA) GET None])
  /\ (forall A,
         run server (Api.getVinilById idA) = Resolved A ->
         trace server (Api.compararPrensagens idA idB)
         = [mkRequest (js "/vinis/" ++ numberToString idA) GET None;
            mkRequest (js "/vinis/" ++ numberToString idB) GET None]
         /\ forall e,
             run server (Api.getVinilById idB) = Rejected e ->
             run server (Api.compararPrensagens idA idB) = Rejected e)
  /\ ((exists c, run server (Api.compararPrensagens idA idB) = Resolved c)
      <-> (exists A, run server (Api.getVinilById idA) = Resolved A)
          /\ (exists B, run server (Api.getVinilById idB) = Resolved B)).
Proof.
  unfold Api.compararPrensagens.
  rewrite run_bind_resolved, trace_bind_resolved.
  destruct (run server (Api.getVinilById idA)) as [A | eA] eqn:HA.
  - rewrite run_bind_resolved, trace_bind_resolved.
    destruct (run server (Api.getVinilById idB)) as [B | eB] eqn:HB; split_all.
    + intros e H. discriminate H.
    + intros A' _. split; [reflexivity | intros e H; discriminate H].
    + split; [eauto | intros _; eexists; reflexivity].
    + intros e H. discriminate H.
    + intros A' _. split; [reflexivity | intros e [= <-]; reflexivity].
    + split; [intros [c H]; discriminate H | intros [_ [B H]]; discriminate H].
  - split_all.
    + intros e [= <-]. split; reflexivity.
    + intros A H. discriminate H.
    + split; [intros [c H]; discriminate H | intros [[A H] _]; discriminate H].
Qed.

Lemma compararPrensagens_sequence_witness :
  trace Sample.catalogue (Api.compararPrensagens (Int 9) (Int 1))
  = [mkRequest (js "/vinis/9") GET None]
  /\ trace Sample.catalogue (Api.compararPrensagens (Int 1) (Int 9))
     = [mkRequest (js "/vinis/1") GET None; mkRequest (js "/vinis/9") GET None].
Proof.
  destruct (compararPrensagens_sequence Sample.catalogue (Int 9) (Int 1))
    as (Hfirst & _).
  destruct (compararPrensagens_sequence Sample.catalogue (Int 1) (Int 9))
    as (_ & Hsecond & _).
  split.
  - destruct (Hfirst (newError (js "Vinil not found"))) as (_ & Htrace);
      [vm_compute; reflexivity |].
    rewrite Htrace. vm_compute. reflexivity.
  - destruct (Hsecond Sample.dark_side) as (Htrace & _);
      [vm_compute; reflexivity |].
    rewrite Htrace. vm_compute. reflexivity.
Defined.

(** X10: [fetchAPI] resolves exactly when the response is a success and
    either has status 204 or carries a body that parses; on a success other
    than 204 it settles as the parsing of the body does, so an unparsable
    body rejects with the parser's error, while on a 204 the body is never
    read. *)
Theorem fetchAPI_resolves (B : Type) (fetched : Api.Fetched B) :
  ((exists j, Api.fetchAPI fetched = Resolved j)
   <-> exists response,
       fetched = Api.Responded response
       /\ Api.ok response = true
       /\ (Api.status response = 204%Z
           \/ exists j, Api.json response = Resolved j))
  /\ (forall response,
         fetched = Api.Responded response ->
         Api.ok response = true ->
         Api.status response <> 204%Z ->
         Api.fetchAPI fetched = Api.json response).
Proof.
  split.
  - split.
    + intros [j H]. destruct fetched as [e | response]; [discriminate H |].
      exists response. split; [reflexivity |]. unfold Api.fetchAPI in H.
      destruct (Api.ok response) eqn:Hok; cbn [negb] in H.
      * split; [reflexivity |].
        destruct (Api.status response =? 204)%Z eqn:S.
        -- left. now apply Z.eqb_eq.
        -- right. eauto.
      * destruct (Api.message_of _); discriminate H.
    + intros (response & -> & Hok & Hbody). unfold Api.fetchAPI.
      rewrite Hok. cbn [negb].
      destruct (Api.status response =? 204)%Z eqn:S; [eauto |].
      destruct Hbody as [H | [j H]]; [| eauto].
      apply Z.eqb_neq in S. contradiction.
  - intros response -> Hok Hst. unfold Api.fetchAPI. rewrite Hok. cbn [negb].
    apply Z.eqb_neq in Hst. now rewrite Hst.
Qed.

Lemma fetchAPI_resolves_witness :
  Api.fetchAPI (Api.Responded
                  (Api.mkResponse true 200 (@Rejected (Api.Json unit) Sample.no_body)))
  = Rejected Sample.no_body.
Proof.
  destruct (fetchAPI_resolves
              unit
              (Api.Responded
                 (Api.mkResponse true 200 (@Rejected (Api.Json unit) Sample.no_body))))
    as (_ & H).
  apply (H (Api.mkResponse true 200 (@Rejected (Api.Json unit) Sample.no_body)));
    [reflexivity | reflexivity | discriminate].
Defined.

(** ** Deduplication *)

Lemma flat_map_ext_on (A B : Type) (f g : A -> list B) (l : list A) :
  (forall a, In a l -> f a = g a) -> flat_map f l = flat_map g l.
Proof.
  induction l as [| a l IH]; simpl; intros H; [reflexivity |].
  rewrite (H a) by auto. f_equal. auto.
Qed.

(** A map without duplicate keys lists, key by key, the value it holds. *)
Lemma values_by_key (V : Type) (m : list (Z * V)) :
  NoDup (keys m) ->
  Api.map_values m
  = flat_map (fun k => match map_get m k with Some v => [v] | None => [] end)
             (keys m).
Proof.
  unfold Api.map_values, keys.
  induction m as [| [k0 v0] m IH]; simpl; [reflexivity |].
  intros Hnd. inversion Hnd as [| ? ? Hnotin Hnd']; subst.
  rewrite Z.eqb_refl. simpl. f_equal.
  rewrite IH by assumption. apply flat_map_ext_on. intros k Hk.
  destruct (k0 =? k)%Z eqn:E; [| reflexivity].
  apply Z.eqb_eq in E. subst. contradiction.
Qed.

(** The combined result, identifier by identifier. *)
Lemma vinisUnicos_by_id (l : list Vinil) :
  Api.vinisUnicos l
  = flat_map (fun i => match last_with_id i l with Some v => [v] | None => [] end)
             (first_occurrences (List.map id l)).
Proof.
  unfold Api.vinisUnicos. change (fun v : Vinil => (id v, v)) with entry.
  rewrite values_by_key
    by (rewrite new_Map_keys; apply NoDup_first_occurrences).
  rewrite new_Map_keys, keys_entries. apply flat_map_ext. intros i.
  now rewrite new_Map_get, <- map_rev, map_get_entries.
Qed.

Lemma first_occurrences_filter (i : Z) (l : list Z) :
  filter (fun j => negb (j =? i)%Z) (first_occurrences l)
  = first_occurrences (filter (fun j => negb (j =? i)%Z) l).
Proof.
  induction l as [| x l IHl]; simpl; [reflexivity |].
  destruct (x =? i)%Z eqn:E; simpl.
  - apply Z.eqb_eq in E. subst x. rewrite filter_filter.
    rewrite <- IHl. apply filter_ext. intros j. now rewrite andb_diag.
  - f_equal. rewrite filter_filter, <- IHl, filter_filter.
    apply filter_ext. intros j. apply andb_comm.
Qed.

(** Identifiers that occurred before add nothing. *)
Lemma first_occurrences_seen (ids extra : list Z) :
  (forall i, In i extra -> In i ids) ->
  first_occurrences (ids ++ extra) = first_occurrences ids.
Proof.
  remember (List.length ids) as n eqn:Hn. revert ids extra Hn.
  induction n as [n IH] using lt_wf_ind. intros ids extra Hn Hsub.
  destruct ids as [| i ids].
  - destruct extra as [| x extra]; [reflexivity |].
    destruct (Hsub x (or_introl eq_refl)).
  - simpl. f_equal. rewrite !first_occurrences_filter, filter_app.
    apply (IH (List.length (filter (fun j => negb (j =? i)%Z) ids))).
    + subst n. simpl.
      pose proof (filter_length_le (fun j => negb (j =? i)%Z) ids). lia.
    + reflexivity.
    + intros j Hj. apply filter_In in Hj as [Hj Hne].
      apply filter_In. split; [| assumption].
      destruct (Hsub j Hj) as [<- | H]; [| assumption].
      now rewrite Z.eqb_refl in Hne.
Qed.

Lemma first_occurrences_twice (ids : list Z) :
  first_occurrences (ids ++ ids) = first_occurrences ids.
Proof. apply first_occurrences_seen. auto. Qed.

Lemma first_with_id_app (i : Z) (l1 l2 : list Vinil) :
  first_with_id i (l1 ++ l2)
  = match first_with_id i l1 with
    | Some v => Some v
    | None => first_with_id i l2
    end.
Proof.
  unfold first_with_id. induction l1 as [| v l1 IH]; simpl; [reflexivity |].
  destruct (id v =? i)%Z; auto.
Qed.

(** X11: deduplication composes: deduplicating a combined result again
    changes nothing, and when the two sub-queries answer with the same list
    (every record matches by artist and by title) the combined result is
    that of the list taken once. *)
Theorem vinisUnicos_composes (l : list Vinil) :
  Api.vinisUnicos (Api.vinisUnicos l) = Api.vinisUnicos l
  /\ Api.vinisUnicos (l ++ l) = Api.vinisUnicos l
  /\ (List.length (Api.vinisUnicos l) <= List.length l)%nat.
Proof.
  split_all.
  - apply vinisUnicos_unchanged, vinisUnicos_NoDup.
  - rewrite !vinisUnicos_by_id, map_app, first_occurrences_twice.
    apply flat_map_ext. intros i. unfold last_with_id.
    rewrite rev_app_distr, first_with_id_app.
    now destruct (first_with_id i (rev l)).
  - rewrite <- (length_map id), vinisUnicos_ids, <- (length_map id l).
    induction (List.map id l) as [| i ids IH]; simpl; [lia |].
    pose proof (filter_length_le (fun j => negb (j =? i)%Z) (first_occurrences ids)).
    lia.
Qed.

(** ** Numbers as text *)

Lemma js_string_of_uint (d : Decimal.uint) :
  js (NilEmpty.string_of_uint d) = digit_codes d.
Proof.
  unfold js. induction d; simpl; try reflexivity; now f_equal.
Qed.

(** Reads the first digit of the numeral in the goal. *)
Ltac read_digit :=
  cbn [digit_codes digits_prefix Pos.of_uint_acc Pos.of_uint];
  lazymatch goal with
  | |- context [digit_value 10 ?c] =>
    let v := eval vm_compute in (digit_value 10 c) in
    change (digit_value 10 c) with v
  | _ => idtac
  end;
  cbv iota beta.

Lemma digits_prefix_acc (d : Decimal.uint) (acc : positive) :
  digits_prefix 10 (digit_codes d) (Some (N.pos acc))
  = Some (N.pos (Pos.of_uint_acc d acc)).
Proof.
  revert acc. induction d; intros acc; read_digit; try reflexivity;
    rewrite <- IHd; do 2 f_equal; lia.
Qed.

Lemma digits_prefix_zero (d : Decimal.uint) :
  digits_prefix 10 (digit_codes d) (Some 0%N) = Some (Pos.of_uint d).
Proof.
  induction d; read_digit; try reflexivity; try exact IHd;
    rewrite <- digits_prefix_acc; reflexivity.
Qed.

Lemma digits_prefix_start (d : Decimal.uint) :
  d <> Decimal.Nil ->
  digits_prefix 10 (digit_codes d) None = Some (Pos.of_uint d).
Proof.
  destruct d; intros H; try contradiction; read_digit;
    try (rewrite <- digits_prefix_acc; reflexivity).
  apply digits_prefix_zero.
Qed.

Lemma parseInt_digits (d : Decimal.uint) :
  parseInt (digit_codes d)
  = match digits_prefix 10 (digit_codes d) None with
    | Some n => Int (1 * Z.of_N n)
    | None => NaN
    end.
Proof. destruct d as [| d | d | d | d | d | d | d | d | d | d]; try reflexivity; destruct d; reflexivity. Qed.

Lemma parseInt_minus_digits (d : Decimal.uint) :
  parseInt (45%N :: digit_codes d)
  = match digits_prefix 10 (digit_codes d) None with
    | Some n => Int (-1 * Z.of_N n)
    | None => NaN
    end.
Proof. destruct d as [| d | d | d | d | d | d | d | d | d | d]; try reflexivity; destruct d; reflexivity. Qed.

(** Writing a number as text and reading it back gives the number. *)
Lemma parseInt_numberToString (n : number) : parseInt (numberToString n) = n.
Proof.
  destruct n as [| [| p | p]]; try reflexivity; unfold numberToString; simpl Z.to_int.
  - cbn [NilEmpty.string_of_int]. rewrite js_string_of_uint, parseInt_digits.
    rewrite digits_prefix_start by apply DecimalPos.Unsigned.to_uint_nonnil.
    rewrite DecimalPos.Unsigned.of_to. reflexivity.
  - cbn [NilEmpty.string_of_int].
    change (js (String "-" (NilEmpty.string_of_uint (Pos.to_uint p))))
      with (45%N :: js (NilEmpty.string_of_uint (Pos.to_uint p))).
    rewrite js_string_of_uint, parseInt_minus_digits.
    rewrite digits_prefix_start by apply DecimalPos.Unsigned.to_uint_nonnil.
    rewrite DecimalPos.Unsigned.of_to. reflexivity.
Qed.

Lemma numberToString_nonempty (n : number) : truthy (numberToString n) = true.
Proof.
  destruct n as [| [| p | p]]; try reflexivity.
  unfold numberToString. simpl Z.to_int. cbn [NilEmpty.string_of_int].
  rewrite js_string_of_uint.
  pose proof (DecimalPos.Unsigned.to_uint_nonnil p) as H.
  destruct (Pos.to_uint p); try reflexivity. contradiction.
Qed.

(** ** Deleting *)

(** X12: the delete button does nothing (no request, no change) when its
    identifier does not read as a number other than zero, or when the
    confirmation is declined.  Otherwise the record is deleted by one
    request: when it fails, the error notification carries the message, no
    reload happens and the grid and the modals are as before; when it
    succeeds, the detail modal is closed and the list is reloaded. *)
Theorem onDeleteClick_outcomes
        (lower : jsstring -> jsstring) (server : Server) (vinilId : jsstring)
        (app : App) :
  (forall confirmacao,
      number_truthy (parseInt vinilId) = false ->
         trace server (onDeleteClick lower vinilId confirmacao app) = []
         /\ run server (onDeleteClick lower vinilId confirmacao app) = app)
  /\ (trace server (onDeleteClick lower vinilId false app) = []
      /\ run server (onDeleteClick lower vinilId false app) = app)
  /\ (number_truthy (parseInt vinilId) = true ->
      (forall e,
          run server (Api.deletarVinil (parseInt vinilId)) = Rejected e ->
          trace server (onDeleteClick lower vinilId true app)
          = [delete_request (parseInt vinilId)]
          /\ notification (dom (run server (onDeleteClick lower vinilId true app)))
             = Some (notificationElement
                       (js "Erro ao deletar vinil: " ++ message e) Error_)
          /\ vinis_grid (dom (run server (onDeleteClick lower vinilId true app)))
             = vinis_grid (dom app)
          /\ modals (dom (run server (onDeleteClick lower vinilId true app)))
             = modals (dom app))
      /\ (forall u,
             run server (Api.deletarVinil (parseInt vinilId)) = Resolved u ->
             trace server (onDeleteClick lower vinilId true app)
             = [delete_request (parseInt vinilId); list_request]
             /\ modal_detalhes
                  (modals (dom (run server (onDeleteClick lower vinilId true app))))
                = false)).
Proof.
  unfold onDeleteClick, handleDeleteVinil. cbv zeta.
  destruct (number_truthy (parseInt vinilId)) eqn:T; split_all;
    try (intros; split; reflexivity); try discriminate; try (split; reflexivity).
  intros _. cbn [negb]. rewrite trace_bind, run_bind.
  destruct (run server (Api.deletarVinil (parseInt vinilId))) as [u | e];
    split.
  - intros e H. discriminate H.
  - intros u' _. rewrite loadVinis_trace, loadVinis_run. split; [reflexivity |].
    destruct (run server Api.getVinis) as [vinis | e]; cbv zeta.
    + pose proof (renderVinisGrid_keeps_outside
                    lower (Some vinis)
                    (dom (with_currentVinis
                            vinis
                            (on_dom showLoading
                                    (on_dom (showSuccess (js "Vinil deletado com sucesso da sua coleção!"))
                                            (on_dom (hideModal ModalDetalhes) app))))))
        as F.
      unfold outside_grid in F. injection F as _ _ _ _ _ _ _ F.
      destruct (renderVinisGrid lower (Some vinis) _) as [d [e |]];
        cbn [fst snd] in *; cbn [loadVinis_failed on_dom with_dom dom]; cbn;
        rewrite F; reflexivity.
    + reflexivity.
  - intros e' [= <-]. split_all; reflexivity.
  - intros u H. discriminate H.
Qed.

Lemma onDeleteClick_outcomes_witness :
  trace Sample.catalogue
        (onDeleteClick Sample.lower (js "abc") true Sample.blank_app) = []
  /\ trace Sample.catalogue
           (onDeleteClick Sample.lower (js "2") true Sample.blank_app)
     = [delete_request (Int 2); list_request].
Proof.
  destruct (onDeleteClick_outcomes Sample.lower Sample.catalogue (js "abc")
                                   Sample.blank_app) as (Hnone & _).
  destruct (onDeleteClick_outcomes Sample.lower Sample.catalogue (js "2")
                                   Sample.blank_app) as (_ & _ & Hdel).
  split.
  - apply Hnone. vm_compute. reflexivity.
  - destruct Hdel as (_ & Hok); [vm_compute; reflexivity |].
    destruct (Hok tt) as (Htrace & _); [vm_compute; reflexivity |].
    rewrite Htrace. vm_compute. reflexivity.
Defined.



(** ** Submitting the form *)

Lemma loadVinis_form (lower : jsstring -> jsstring) (server : Server) (app : App) :
  form (run server (loadVinis lower app)) = form app.
Proof.
  rewrite loadVinis_run. destruct (run server Api.getVinis) as [vinis | e];
    [| reflexivity].
  cbv zeta. destruct (snd (renderVinisGrid lower (Some vinis) _)); reflexivity.
Qed.

Lemma loadVinis_modals (lower : jsstring -> jsstring) (server : Server) (app : App) :
  modals (dom (run server (loadVinis lower app))) = modals (dom app).
Proof.
  rewrite loadVinis_run. destruct (run server Api.getVinis) as [vinis | e];
    [| reflexivity].
  cbv zeta.
  pose proof (renderVinisGrid_keeps_outside
                lower (Some vinis)
                (dom (with_currentVinis vinis (on_dom showLoading app)))) as F.
  unfold outside_grid in F. injection F as _ _ _ _ _ _ _ F.
  destruct (snd (renderVinisGrid lower (Some vinis) _)); cbn; rewrite F; reflexivity.
Qed.

(** X14: however a submission ends (rejected by the checks, refused by the
    service, or saved), the submit button is enabled again and carries the
    label it had before the submission. *)
Theorem handleFormSubmit_restores_button
        (lower : jsstring -> jsstring) (server : Server) (app : App) :
  submit_disabled (form (run server (handleFormSubmit lower app))) = false
  /\ submit_html (form (run server (handleFormSubmit lower app)))
     = submit_html (form app).
Proof.
  unfold handleFormSubmit. cbv zeta.
  repeat match goal with
         | |- context [run server (if ?c then Ret _ else _)] =>
           destruct c; [split; reflexivity |]
         end.
  rewrite run_bind.
  match goal with
  | |- context [match ?r with Resolved _ => _ | Rejected _ => _ end] =>
    destruct r as [resultado | e]
  end.
  - rewrite run_bind. split; reflexivity.
  - split; reflexivity.
Qed.

Lemma validation_passes (f : Form) :
  valid_form f ->
  negb (truthy (data_artista (collect f)))
  || negb (truthy (data_album (collect f)))
  || negb (truthy (data_cor_prensagem (collect f)))
  || negb (number_truthy (data_ano (collect f)))
  || negb (truthy (data_midia (collect f))) = false
  /\ number_lt (data_ano (collect f)) (Int 1900)
     || number_gt (data_ano (collect f)) (Int 2025) = false.
Proof.
  intros (HA & HAl & HC & HM & y & Hy & Hrange). cbn [collect data_artista
    data_album data_cor_prensagem data_ano data_midia].
  rewrite Hy. unfold number_gt. cbn [number_truthy number_lt].
  assert (T : forall s : jsstring, s <> [] -> truthy s = true)
    by (intros [| c s] H; [contradiction | reflexivity]).
  rewrite !T by assumption.
  replace (y =? 0)%Z with false by (symmetry; apply Z.eqb_neq; lia).
  replace (y <? 1900)%Z with false by (symmetry; apply Z.ltb_ge; lia).
  replace (2025 <? y)%Z with false by (symmetry; apply Z.ltb_ge; lia).
  split; reflexivity.
Qed.

(** The program of a submission that passes the checks. *)
Lemma handleFormSubmit_valid
      (lower : jsstring -> jsstring) (server : Server) (app : App) :
  valid_form (form app) ->
  trace server (handleFormSubmit lower app)
  = submission (form app)
    :: match server TVinil (submission (form app)) with
       | Resolved _ => [list_request]
       | Rejected _ => []
       end
  /\ run server (handleFormSubmit lower app)
     = let saving :=
         on_form (with_submit true (js "<span>⏳</span> Salvando...")) app in
       let finally := on_form (with_submit false (submit_html (form app))) in
       match server TVinil (submission (form app)) with
       | Rejected error =>
         finally (on_dom (showError (js "Erro ao adicionar vinil: "
                                     ++ message error))
                         saving)
       | Resolved resultado =>
         let mensagem :=
           if match editId (form app) with Some s => truthy s | None => false end
           then tpl "Vinil `" ++ album resultado ++ tpl "` atualizado com sucesso!"
           else tpl "Vinil `" ++ album resultado ++ tpl "` adicionado com sucesso!" in
         finally
           (on_form clearImagePreview
              (on_form delete_editId
                 (on_form reset
                    (run server
                         (loadVinis lower
                                    (on_dom (showSuccess mensagem)
                                            (on_dom (hideModal ModalForm)
                                                    saving)))))))
       end.
Proof.
  intros Hvalid. destruct (validation_passes (form app) Hvalid) as [R1 R2].
  unfold handleFormSubmit. cbv zeta.
  change (collect (form (on_form (with_submit true (js "<span>⏳</span> Salvando..."))
                                 app)))
    with (collect (form app)).
  rewrite R1, R2. rewrite trace_bind, run_bind.
  unfold submission, Api.atualizarVinil, Api.adicionarVinil, Api.request.
  destruct (editId (form app)) as [[| c i] |]; cbn [truthy trace run];
    match goal with
    | |- context [server TVinil ?req] => destruct (server TVinil req)
    end; rewrite ?trace_bind, ?run_bind, ?loadVinis_trace; split; reflexivity.
Qed.

(** X15: a submission that passes the checks issues the create or update
    call.  When the service refuses it, nothing else is requested, the
    notification carries the service's message, and the form keeps what was
    typed, its edit identifier and its image, with the modals as they were.
    When the service accepts it, the list is reloaded, the form modal is
    closed, and the form is reset to its defaults with no edit identifier
    and no image; if that reload fails, it is the reload's error
    notification that is left on the page. *)
Theorem handleFormSubmit_outcomes
        (lower : jsstring -> jsstring) (server : Server) (app : App) :
  valid_form (form app) ->
  (forall e,
      server TVinil (submission (form app)) = Rejected e ->
      trace server (handleFormSubmit lower app) = [submission (form app)]
      /\ notification (dom (run server (handleFormSubmit lower app)))
         = Some (notificationElement
                   (js "Erro ao adicionar vinil: " ++ message e) Error_)
      /\ fields (form (run server (handleFormSubmit lower app)))
         = fields (form app)
      /\ editId (form (run server (handleFormSubmit lower app)))
         = editId (form app)
      /\ getImageData (form (run server (handleFormSubmit lower app)))
         = getImageData (form app)
      /\ modals (dom (run server (handleFormSubmit lower app)))
         = modals (dom app))
  /\ (forall resultado,
         server TVinil (submission (form app)) = Resolved resultado ->
         trace server (handleFormSubmit lower app)
         = [submission (form app); list_request]
         /\ fields (form (run server (handleFormSubmit lower app)))
            = defaults (form app)
         /\ editId (form (run server (handleFormSubmit lower app))) = None
         /\ getImageData (form (run server (handleFormSubmit lower app))) = None
         /\ modal_form
              (modals (dom (run server (handleFormSubmit lower app))))
            = false
         /\ (forall e', run server Api.getVinis = Rejected e' ->
                        shows_error
                          (dom (run server (handleFormSubmit lower app))))).
Proof.
  intros Hvalid.
  destruct (handleFormSubmit_valid lower server app Hvalid) as [Ht Hr].
  rewrite Ht, Hr. cbv zeta. clear Ht Hr. split.
  - intros e ->. split_all; reflexivity.
  - intros resultado ->.
    set (app1 := on_dom (showSuccess _) _).
    split_all; try reflexivity;
      cbn [form dom fields defaults on_form on_dom with_submit
           clearImagePreview delete_editId reset];
      rewrite ?loadVinis_form, ?loadVinis_modals; try reflexivity.
    intros e' H. rewrite loadVinis_run, H. eexists. reflexivity.
Qed.

Lemma handleFormSubmit_outcomes_witness :
  trace Sample.accepting
        (handleFormSubmit Sample.lower (Sample.app_submitting (js "1972")))
  = [submission (form (Sample.app_submitting (js "1972"))); list_request]
  /\ trace Sample.offline
           (handleFormSubmit Sample.lower (Sample.app_submitting (js "1972")))
     = [submission (form (Sample.app_submitting (js "1972")))].
Proof.
  assert (V : valid_form (form (Sample.app_submitting (js "1972")))).
  { unfold valid_form. split_all; try (vm_compute; discriminate).
    exists 1972%Z. split; [vm_compute; reflexivity | lia]. }
  destruct (handleFormSubmit_outcomes
              Sample.lower Sample.accepting (Sample.app_submitting (js "1972")) V)
    as (_ & Hok).
  destruct (handleFormSubmit_outcomes
              Sample.lower Sample.offline (Sample.app_submitting (js "1972")) V)
    as (Hfail & _).
  split.
  - apply (Hok Sample.pink_moon). vm_compute. reflexivity.
  - apply (Hfail Sample.unavailable). vm_compute. reflexivity.
Defined.

(** ** Editing *)

(** What [handleEditVinil] returns once the record has arrived. *)
Lemma handleEditVinil_run
      (stored : Control -> jsstring -> jsstring) (server : Server)
      (id : number) (page : Page) (vinil : Vinil) :
  run server (Api.getVinilById id) = Resolved vinil ->
  editId (form (page_app (run server (handleEditVinil stored id page))))
  = Some (numberToString id)
  /\ fields (form (page_app (run server (handleEditVinil stored id page))))
     = {| form_artista := stored FormArtista (artista vinil);
          form_album := stored FormAlbum (album vinil);
          form_cor := stored FormCor (cor_prensagem vinil);
          form_ano := stored FormAno (numberToString (Int (ano vinil)));
          form_midia := stored FormMidia (midia vinil);
          form_selo := stored FormSelo (opt_or_else (selo vinil) []) |}
  /\ getImageData (form (page_app (run server (handleEditVinil stored id page))))
     = match capa vinil with
       | Some (c0 :: c) => Some (cover_url (c0 :: c))
       | _ => getImageData (form (page_app page))
       end
  /\ modals (dom (page_app (run server (handleEditVinil stored id page))))
     = set_active ModalForm true
                  (set_active ModalDetalhes false (modals (dom (page_app page)))).
Proof.
  intros H. unfold handleEditVinil. rewrite run_bind, H. cbv zeta.
  destruct (capa vinil) as [[| c0 c] |]; cbn [truthy]; split_all; try reflexivity.
  unfold cover_url.
  destruct (startsWith (c0 :: c) (js "/uploads")); reflexivity.
Qed.



(** ** Image picker *)

(** X17: a file of more than 5 MiB (5 x 1024 x 1024 bytes), or whose media
    type does not start with [image/], never reaches the reader: an error is
    shown, the file input is emptied, and the image of the form stays what
    it was (an earlier preview is kept).  A file of at most that size with
    an image type is handed to the reader with nothing changed, and once
    read, its data URL, if not empty, is the image the form collects. *)
Theorem onFileChange_bounds (file : File) (app : App) :
  ((5242880 < file_size file)%Z
   \/ startsWith (file_type file) (js "image/") = false ->
   snd (onFileChange (Some file) app) = false
   /\ shows_error (dom (fst (onFileChange (Some file) app)))
   /\ form_capa (form (fst (onFileChange (Some file) app))) = []
   /\ getImageData (form (fst (onFileChange (Some file) app)))
      = getImageData (form app))
  /\ ((file_size file <= 5242880)%Z ->
      startsWith (file_type file) (js "image/") = true ->
      onFileChange (Some file) app = (app, true))
  /\ (forall result,
         truthy result = true ->
         getImageData (form (onFileRead result app)) = Some result
         /\ data_capa (collect (form (onFileRead result app))) = Some result).
Proof.
  unfold onFileChange. change (5 * 1024 * 1024)%Z with 5242880%Z. split_all.
  - intros H. destruct (5242880 <? file_size file)%Z eqn:S.
    { split_all; try reflexivity. eexists. reflexivity. }
    apply Z.ltb_ge in S. destruct H as [H | H]; [lia |]. rewrite H. cbn [negb].
    split_all; try reflexivity. eexists. reflexivity.
  - intros S T. apply Z.ltb_ge in S. rewrite S, T. reflexivity.
  - intros result T. unfold onFileRead.
    cbn [collect data_capa form on_form]. unfold getImageData, show_preview.
    cbn [preview_src preview_display]. rewrite T. split; reflexivity.
Qed.

Lemma onFileChange_bounds_witness :
  onFileChange (Some (mkFile 5242880 (js "image/png"))) Sample.blank_app
  = (Sample.blank_app, true)
  /\ snd (onFileChange (Some (mkFile 5242881 (js "image/png"))) Sample.blank_app)
     = false.
Proof.
  destruct (onFileChange_bounds (mkFile 5242880 (js "image/png")) Sample.blank_app)
    as (_ & Hok & _).
  destruct (onFileChange_bounds (mkFile 5242881 (js "image/png")) Sample.blank_app)
    as (Hbig & _).
  split.
  - apply Hok; [simpl; lia | vm_compute; reflexivity].
  - apply Hbig. left. simpl. lia.
Defined.

(** ** Filters *)

Lemma filters_combined (cor midia : jsstring) (l : list Vinil) :
  (let filtered := l in
   let filtered :=
     if truthy cor
     then filter (fun v => JsString.eqb (cor_prensagem v) cor) filtered
     else filtered in
   if truthy midia
   then filter (fun v => JsString.eqb (Model.midia v) midia) filtered
   else filtered)
  = filter (passes_filters cor midia) l.
Proof.
  cbv zeta. unfold passes_filters.
  destruct (truthy cor), (truthy midia); cbn [negb orb].
  - rewrite filter_filter. apply filter_ext. intros v. apply andb_comm.
  - apply filter_ext. intros v. now rewrite andb_true_r.
  - reflexivity.
  - induction l as [| v l IH]; simpl; [reflexivity | now f_equal].
Qed.

Lemma applyFilters_cached_run
      (lower : jsstring -> jsstring) (server : Server) (page : Page) :
  currentVinis (appState (page_app page)) <> [] ->
  trace server (applyFilters lower page) = []
  /\ run server (applyFilters lower page)
     = let a := on_dom showLoading (page_app page) in
       let rendered :=
         renderVinisGrid
           lower
           (Some (filter (passes_filters (filter_cor page) (filter_midia page))
                         (currentVinis (appState (page_app page)))))
           (dom a) in
       with_app
         match snd rendered with
         | None => with_dom (fst rendered) a
         | Some _ => applyFilters_failed (with_dom (fst rendered) a)
         end
         page.
Proof.
  intros Hne. unfold applyFilters. cbv zeta.
  change (currentVinis (appState (on_dom showLoading (page_app page))))
    with (currentVinis (appState (page_app page))).
  destruct (currentVinis (appState (page_app page))) as [| v vinis] eqn:C;
    [contradiction |].
  cbn [List.length Nat.eqb].
  pose proof (filters_combined (filter_cor page) (filter_midia page) (v :: vinis))
    as F.
  cbv zeta in F. rewrite F.
  destruct (renderVinisGrid lower _ _) as [d [e |]]; split; reflexivity.
Qed.

(** X18: with a cached list that is not empty, applying the filters issues
    no request and leaves the cache as it is; the grid shows the cached
    records that pass both filters (an empty filter lets every record pass),
    one card each in the order of the cache, or the "no results"
    placeholder when none passes.  With an empty cache the list is fetched
    first, and when that fetch fails the error is shown with the loading
    indicator still displayed. *)
Theorem applyFilters_outcomes
        (lower : jsstring -> jsstring) (server : Server) (page : Page) :
  (currentVinis (appState (page_app page)) <> [] ->
   trace server (applyFilters lower page) = []
   /\ currentVinis (appState (page_app (run server (applyFilters lower page))))
      = currentVinis (appState (page_app page))
   /\ (filter (passes_filters (filter_cor page) (filter_midia page))
              (currentVinis (appState (page_app page))) = [] ->
       no_results (dom (page_app (run server (applyFilters lower page))))
       = DisplayFlex
       /\ vinis_grid (dom (page_app (run server (applyFilters lower page)))) = [])
   /\ (forall cards,
          filter (passes_filters (filter_cor page) (filter_midia page))
                 (currentVinis (appState (page_app page))) <> [] ->
          build_all lower
                    (filter (passes_filters (filter_cor page) (filter_midia page))
                            (currentVinis (appState (page_app page))))
          = Some cards ->
          vinis_grid (dom (page_app (run server (applyFilters lower page))))
          = cards
          /\ notification (dom (page_app (run server (applyFilters lower page))))
             = notification (dom (page_app page))))
  /\ (currentVinis (appState (page_app page)) = [] ->
      trace server (applyFilters lower page) = [list_request]
      /\ forall e,
          run server Api.getVinis = Rejected e ->
          shows_error (dom (page_app (run server (applyFilters lower page))))
          /\ loading (dom (page_app (run server (applyFilters lower page))))
             = DisplayBlock).
Proof.
  split.
  - intros Hne. destruct (applyFilters_cached_run lower server page Hne) as [Ht Hr].
    rewrite Ht, Hr. cbv zeta. clear Ht Hr. split_all.
    + reflexivity.
    + destruct (snd (renderVinisGrid lower _ _)); reflexivity.
    + intros ->. split; reflexivity.
    + intros cards Hshown Hcards.
      destruct (renderVinisGrid_one_card lower _ cards
                  (dom (on_dom showLoading (page_app page))) Hshown Hcards)
        as (Hnone & Hgrid).
      rewrite Hnone. cbn [page_app with_app with_dom dom]. split; [exact Hgrid |].
      pose proof (renderVinisGrid_keeps_outside
                    lower
                    (Some (filter (passes_filters (filter_cor page) (filter_midia page))
                                  (currentVinis (appState (page_app page)))))
                    (dom (on_dom showLoading (page_app page)))) as F.
      unfold outside_grid in F. injection F as _ _ _ _ _ _ F _. exact F.
  - intros Hempty. unfold applyFilters. cbv zeta.
    change (currentVinis (appState (on_dom showLoading (page_app page))))
      with (currentVinis (appState (page_app page))).
    rewrite Hempty. cbn [List.length Nat.eqb]. rewrite trace_bind, run_bind.
    split.
    + simpl trace at 1. destruct (run server Api.getVinis); reflexivity.
    + intros e ->. split; [eexists; reflexivity | reflexivity].
Qed.

Lemma applyFilters_outcomes_witness :
  trace Sample.offline (applyFilters Sample.lower Sample.page_filtering) = []
  /\ List.map vinilId
              (vinis_grid
                 (dom (page_app (run Sample.offline
                                     (applyFilters Sample.lower
                                                   Sample.page_filtering)))))
     = [js "2"].
Proof.
  destruct (applyFilters_outcomes Sample.lower Sample.offline Sample.page_filtering)
    as (Hcached & _).
  destruct Hcached as (Ht & _ & _ & Hshown); [vm_compute; discriminate |].
  split; [exact Ht |].
  destruct (Hshown
              (vinis_grid
                 (fst (renderVinisGrid Sample.lower (Some [Sample.pink_moon])
                                       Sample.blank_dom))))
    as (Hgrid & _);
    [vm_compute; discriminate | vm_compute; reflexivity |].
  rewrite Hgrid. vm_compute. reflexivity.
Defined.

(** ** Search box *)

Lemma loadVinis_isSearching
      (lower : jsstring -> jsstring) (server : Server) (app : App) :
  isSearching (appState (run server (loadVinis lower app)))
  = isSearching (appState app).
Proof.
  rewrite loadVinis_run. destruct (run server Api.getVinis) as [vinis | e];
    [| reflexivity].
  cbv zeta. destruct (snd (renderVinisGrid lower (Some vinis) _)); reflexivity.
Qed.

Lemma trimStart_spaces (s : jsstring) :
  forallb is_space s = true -> trimStart s = [].
Proof.
  induction s as [| c s IH]; simpl; [reflexivity |].
  rewrite andb_true_iff. intros [-> H]. auto.
Qed.

(** X19: when the search timer fires with fewer than two code units in the
    box (in particular when the box holds only white space, which the input
    listener trims away), the whole list is reloaded and the searching flag
    is left as it was: it is not cleared.  With two code units or more the
    timer runs the coordinator's search, which sets the flag. *)
Theorem onSearchTimeout_outcomes
        (lower : jsstring -> jsstring) (server : Server) (termo : jsstring)
        (app : App) :
  ((List.length termo < 2)%nat ->
   trace server (onSearchTimeout lower termo app) = [list_request]
   /\ isSearching (appState (run server (onSearchTimeout lower termo app)))
      = isSearching (appState app))
  /\ ((2 <= List.length termo)%nat ->
      trace server (onSearchTimeout lower termo app)
      = trace server (Api.buscarVinis termo)
      /\ isSearching (appState (run server (onSearchTimeout lower termo app)))
         = true)
  /\ (forall value pending,
         forallb is_space value = true ->
         onSearchInput value pending = Some []).
Proof.
  unfold onSearchTimeout. split_all.
  - intros H. replace (2 <=? List.length termo)%nat with false
      by (symmetry; apply Nat.leb_gt; lia).
    split; [apply loadVinis_trace | apply loadVinis_isSearching].
  - intros H. replace (2 <=? List.length termo)%nat with true
      by (symmetry; now apply Nat.leb_le).
    unfold Main.buscarVinis.
    replace (List.length termo <? 2)%nat with false
      by (symmetry; now apply Nat.ltb_ge).
    cbv zeta. rewrite trace_bind, run_bind.
    destruct (renderVinisGrid lower _ _) as [d [e |]];
      cbn [trace run]; rewrite app_nil_r; split; reflexivity.
  - intros value pending H. unfold onSearchInput, trim, trimEnd.
    rewrite (trimStart_spaces value) by assumption. reflexivity.
Qed.

Lemma onSearchTimeout_outcomes_witness :
  isSearching
    (appState (run Sample.catalogue
                   (onSearchTimeout Sample.lower [] Sample.app_searching)))
  = true
  /\ onSearchInput (js "   ") None = Some [].
Proof.
  destruct (onSearchTimeout_outcomes Sample.lower Sample.catalogue []
                                     Sample.app_searching)
    as (Hshort & _ & Hspaces).
  split.
  - destruct Hshort as (_ & Hflag); [simpl; lia |]. rewrite Hflag. reflexivity.
  - apply Hspaces. vm_compute. reflexivity.
Defined.

(** ** Showing a comparison *)



(** ** Counters *)

Lemma minimum_least (first : Z) (rest : list Z) :
  In (minimum first rest) (first :: rest)
  /\ forall y, In y (first :: rest) -> (minimum first rest <= y)%Z.
Proof.
  unfold minimum. revert first. induction rest as [| x rest IH]; intros first.
  - simpl. split; [auto | intros y [<- | []]; lia].
  - cbn [fold_left]. destruct (IH (Z.min first x)) as [Hin Hle]. split.
    + destruct Hin as [Hm | Hin]; [| right; right; exact Hin].
      rewrite <- Hm. destruct (Z.min_spec first x) as [[_ ->] | [_ ->]];
        [left | right; left]; reflexivity.
    + intros y [<- | [<- | Hy]].
      * specialize (Hle (Z.min first x) (or_introl eq_refl)). lia.
      * specialize (Hle (Z.min first x) (or_introl eq_refl)). lia.
      * apply Hle. now right.
Qed.

Lemma distinct_In (l : list jsstring) (s : jsstring) :
  In s (distinct l) <-> In s l.
Proof.
  induction l as [| x l IH]; simpl; [tauto |].
  destruct (existsb (JsString.eqb x) l) eqn:E.
  - rewrite IH. split; [auto |]. intros [<- | H]; [| exact H].
    apply existsb_exists in E as (y & Hy & Heq). apply eqb_eq in Heq. now subst.
  - simpl. rewrite IH. tauto.
Qed.

Lemma distinct_NoDup (l : list jsstring) : NoDup (distinct l).
Proof.
  induction l as [| x l IH]; simpl; [constructor |].
  destruct (existsb (JsString.eqb x) l) eqn:E; [exact IH |].
  constructor; [| exact IH]. rewrite distinct_In. intros Hin.
  apply not_true_iff_false in E. apply E. apply existsb_exists.
  exists x. split; [exact Hin | apply eqb_refl].
Qed.

(** X21: for a list that is not empty, the counters show the number of
    records; a number of rarities that does not exceed it; the number of
    artists, each counted once; and the oldest year, which is the least year
    among the records whose year is not zero, or four dashes when every year
    is zero.  For an empty or absent list the counters are left as they
    were. *)
Theorem updateMiniStats_counts (vinis : list Vinil) (dom : Dom) :
  (vinis <> [] ->
   total_vinis_text (mini_stats (updateMiniStats (Some vinis) dom))
   = numberToString (Int (Z.of_nat (List.length vinis)))
   /\ (exists rarities,
          total_raridades_text (mini_stats (updateMiniStats (Some vinis) dom))
          = numberToString (Int (Z.of_nat rarities))
          /\ (rarities <= List.length vinis)%nat)
   /\ (exists artists,
          total_artistas_text (mini_stats (updateMiniStats (Some vinis) dom))
          = numberToString (Int (Z.of_nat (List.length artists)))
          /\ NoDup artists
          /\ forall s, In s artists <-> In s (List.map artista vinis))
   /\ ((forall v, In v vinis -> ano v = 0%Z) ->
       ano_mais_antigo_text (mini_stats (updateMiniStats (Some vinis) dom))
       = js "----")
   /\ (forall v, In v vinis -> ano v <> 0%Z ->
                 exists oldest,
                   ano_mais_antigo_text
                     (mini_stats (updateMiniStats (Some vinis) dom))
                   = numberToString (Int oldest)
                   /\ oldest <> 0%Z
                   /\ In oldest (List.map ano vinis)
                   /\ forall w, In w vinis -> ano w <> 0%Z -> (oldest <= ano w)%Z))
  /\ updateMiniStats (Some []) dom = dom
  /\ updateMiniStats None dom = dom.
Proof.
  split; [| split; reflexivity].
  intros Hne. unfold updateMiniStats.
  replace (is_empty (Some vinis)) with false by (now destruct vinis).
  cbv zeta. cbn [elements mini_stats with_mini_stats total_vinis_text
                 total_raridades_text total_artistas_text ano_mais_antigo_text].
  assert (Hyears : forall y,
             In y (filter (fun a => negb (a =? 0)%Z) (List.map ano vinis))
             <-> exists w, In w vinis /\ ano w = y /\ y <> 0%Z).
  { intros y. rewrite filter_In, in_map_iff, negb_true_iff, Z.eqb_neq.
    split.
    - intros [(w & <- & Hw) Hy]. eauto.
    - intros (w & Hw & <- & Hy). eauto. }
  split_all.
  - reflexivity.
  - eexists. split; [reflexivity | apply filter_length_le].
  - exists (distinct (List.map artista vinis)).
    split_all; [reflexivity | apply distinct_NoDup | apply distinct_In].
  - intros Hzero.
    destruct (filter (fun a => negb (a =? 0)%Z) (List.map ano vinis))
      as [| y rest] eqn:F; [reflexivity |].
    destruct (proj1 (Hyears y) (or_introl eq_refl)) as (w & Hw & Hy & Hnz).
    rewrite (Hzero w Hw) in Hy. congruence.
  - intros v Hv Hnz.
    destruct (filter (fun a => negb (a =? 0)%Z) (List.map ano vinis))
      as [| y rest] eqn:F.
    { destruct (proj2 (Hyears (ano v))); eauto. }
    destruct (minimum_least y rest) as [Hin Hle].
    exists (minimum y rest). split; [reflexivity |].
    destruct (proj1 (Hyears _) Hin) as (w & Hw & Hy & Hm). split_all.
    + exact Hm.
    + rewrite <- Hy. now apply in_map.
    + intros u Hu Hunz. apply Hle. apply Hyears. eauto.
Qed.

Lemma updateMiniStats_counts_witness :
  ano_mais_antigo_text
    (mini_stats (updateMiniStats (Some [Sample.dark_side; Sample.pink_moon])
                                 Sample.blank_dom))
  = js "1972".
Proof.
  destruct (updateMiniStats_counts [Sample.dark_side; Sample.pink_moon]
                                   Sample.blank_dom) as (H & _).
  destruct H as (_ & _ & _ & _ & Hold); [discriminate |].
  destruct (Hold Sample.pink_moon) as (oldest & Htext & _ & Hin & Hle);
    [right; left; reflexivity | discriminate |].
  rewrite Htext.
  assert (E : oldest = 1972%Z).
  { specialize (Hle Sample.pink_moon (or_intror (or_introl eq_refl))).
    simpl in Hin, Hle.
    destruct Hin as [<- | [<- | []]]; [| reflexivity].
    exfalso. apply Z.le_ngt in Hle; [apply Hle; reflexivity | discriminate]. }
  rewrite E. reflexivity.
Defined.

(** ** Statistics panel *)



(** ** Detail modal *)

(** X23: opening the details of a record issues one request, for that
    record, and ends with the detail modal open whatever happens.  The
    panel holds the details when the record arrives and its panel can be
    built; otherwise it holds a paragraph with the message of the failure,
    copied as it is.  The grid and the notification are not touched. *)
Theorem showVinilDetailsModal_outcomes (server : Server) (id : Z) (dom : Dom) :
  trace server (showVinilDetailsModal id dom)
  = [mkRequest (js "/vinis/" ++ numberToString (Int id)) GET None]
  /\ modal_detalhes (modals (run server (showVinilDetailsModal id dom))) = true
  /\ vinis_grid (run server (showVinilDetailsModal id dom)) = vinis_grid dom
  /\ notification (run server (showVinilDetailsModal id dom)) = notification dom
  /\ (forall vinil html,
         run server (Api.getVinilById (Int id)) = Resolved vinil ->
         createVinilDetailsHTML vinil = Normal html ->
         detalhes_content (run server (showVinilDetailsModal id dom)) = html)
  /\ (forall e,
         run server (Api.getVinilById (Int id)) = Rejected e
         \/ (exists vinil,
                run server (Api.getVinilById (Int id)) = Resolved vinil
                /\ createVinilDetailsHTML vinil = Throw e) ->
         detalhes_content (run server (showVinilDetailsModal id dom))
         = tpl "<p style=`color: red;`>Erro ao carregar detalhes: "
           ++ message e ++ js "</p>").
Proof.
  unfold showVinilDetailsModal. rewrite trace_bind, run_bind. cbv zeta.
  destruct (run server (Api.getVinilById (Int id))) as [vinil | e] eqn:R.
  - destruct (createVinilDetailsHTML vinil) as [html | e] eqn:C; split_all;
      try reflexivity; try (now destruct (modals dom)).
    + intros v h [= <-] Hh. rewrite C in Hh. now injection Hh.
    + intros e [H | (v & [= <-] & Hv)]; [discriminate H |].
      rewrite C in Hv. discriminate Hv.
    + intros v h [= <-] Hh. rewrite C in Hh. discriminate Hh.
    + intros e' [H | (v & [= <-] & Hv)]; [discriminate H |].
      rewrite C in Hv. injection Hv as <-. reflexivity.
  - split_all; try reflexivity; try (now destruct (modals dom)).
    intros e' [[= <-] | (v & H & _)]; [reflexivity | discriminate H].
Qed.

Lemma showVinilDetailsModal_outcomes_witness :
  detalhes_content (run Sample.catalogue (showVinilDetailsModal 9 Sample.blank_dom))
  = tpl "<p style=`color: red;`>Erro ao carregar detalhes: "
    ++ js "Vinil not found" ++ js "</p>".
Proof.
  destruct (showVinilDetailsModal_outcomes Sample.catalogue 9 Sample.blank_dom)
    as (_ & _ & _ & _ & _ & Hfail).
  apply (Hfail (newError (js "Vinil not found"))). left. vm_compute. reflexivity.
Defined.

(** ** Angle brackets *)

Lemma count_app (c : N) (s t : jsstring) :
  Spec.count c (s ++ t) = (Spec.count c s + Spec.count c t)%nat.
Proof.
  induction s as [| d s IH]; simpl; [reflexivity | rewrite IH; lia].
Qed.

Lemma count_absent (c : N) (s : jsstring) :
  (forall d, In d s -> d <> c) -> Spec.count c s = 0%nat.
Proof.
  induction s as [| d s IH]; intros H; simpl; [reflexivity |].
  rewrite IH by (intros x Hx; apply H; now right).
  destruct (N.eqb_spec d c) as [E | _]; [| reflexivity].
  destruct (H d (or_introl eq_refl) E).
Qed.

Lemma count_escapeHTML (text : jsstring) :
  Spec.count 60 (escapeHTML text) = 0%nat /\ Spec.count 62 (escapeHTML text) = 0%nat.
Proof.
  split; apply count_absent; intros d Hd; apply escapeHTML_inert in Hd; tauto.
Qed.

Lemma count_digit_codes (c : N) (d : Decimal.uint) :
  (57 < c)%N -> Spec.count c (Spec.digit_codes d) = 0%nat.
Proof.
  intros Hc. apply count_absent. intros x Hx E. subst x.
  induction d; simpl in Hx;
    try (destruct Hx as [Hx | Hx]; [subst c; vm_compute in Hc; discriminate Hc | auto]).
  destruct Hx.
Qed.

Lemma count_numberToString (n : number) :
  Spec.count 60 (numberToString n) = 0%nat /\ Spec.count 62 (numberToString n) = 0%nat.
Proof.
  destruct n as [| [| p | p]]; try (split; reflexivity);
    unfold numberToString; simpl Z.to_int; cbn [NilEmpty.string_of_int].
  - rewrite js_string_of_uint. split; apply count_digit_codes; reflexivity.
  - change (js (String "-" (NilEmpty.string_of_uint (Pos.to_uint p))))
      with (45%N :: js (NilEmpty.string_of_uint (Pos.to_uint p))).
    rewrite js_string_of_uint. cbn [Spec.count].
    split; rewrite count_digit_codes; reflexivity.
Qed.

Lemma count_repeat (c : N) (s : jsstring) (n : nat) :
  Spec.count c (JsString.repeat s n) = (n * Spec.count c s)%nat.
Proof.
  induction n as [| n IH]; simpl; [reflexivity | rewrite count_app, IH; lia].
Qed.

Lemma count_encodeURIComponent (s encoded : jsstring) :
  encodeURIComponent s = Some encoded ->
  Spec.count 60 encoded = 0%nat /\ Spec.count 62 encoded = 0%nat.
Proof.
  intros H. split; apply count_absent; intros d Hd E; subst d;
    apply (encodeURIComponent_safe _ _ H) in Hd; discriminate Hd.
Qed.

Lemma count_bgStyle (cor bgStyle : jsstring) (isGradient : bool) :
  bgStyleOf cor = Normal (bgStyle, isGradient) ->
  Spec.count 60 bgStyle = 0%nat /\ Spec.count 62 bgStyle = 0%nat.
Proof.
  unfold bgStyleOf, corMap.
  destruct (JsString.eqb cor (js "Preto")); [intros [= <- _]; split; reflexivity |].
  destruct (JsString.eqb cor (js "Colorido")); [intros [= <- _]; split; reflexivity |].
  destruct (JsString.eqb cor (js "Transparente"));
    [intros [= <- _]; split; reflexivity |].
  destruct (JsString.eqb cor (js "Roxo")); [intros [= <- _]; split; reflexivity |].
  destruct (existsb (JsString.eqb cor) object_prototype_keys); [discriminate |].
  intros [= <- _]; split; reflexivity.
Qed.

Ltac count_literals :=
  repeat match goal with
         | |- context [Spec.count ?c (tpl ?s)] =>
           let v := eval vm_compute in (Spec.count c (tpl s)) in
           replace (Spec.count c (tpl s)) with v by (vm_compute; reflexivity)
         | |- context [Spec.count ?c (js ?s)] =>
           let v := eval vm_compute in (Spec.count c (js s)) in
           replace (Spec.count c (js s)) with v by (vm_compute; reflexivity)
         end.

Local Opaque tpl js.

(** X24: of what a record holds, only the title puts angle brackets in the
    detail panel, where it is copied once as it is (into the [alt]
    attribute): the panel has 113 opening and 113 closing brackets of its
    own, and beyond them those of the title, whatever the artist, the
    colour, the year, the label and the medium are. *)
Theorem createVinilDetailsHTML_angle_brackets (vinil : Vinil) (html : jsstring) :
  createVinilDetailsHTML vinil = Normal html ->
  Spec.count 60 html = (113 + Spec.count 60 (album vinil))%nat
  /\ Spec.count 62 html = (113 + Spec.count 62 (album vinil))%nat.
Proof.
  unfold createVinilDetailsHTML.
  destruct (bgStyleOf (cor_prensagem vinil)) as [[bgStyle isGradient] | e] eqn:B;
    [| discriminate].
  destruct (encodeURIComponent (substring0 (album vinil) 20)) as [encoded |] eqn:U;
    [| discriminate].
  intros [= <-].
  destruct (count_bgStyle _ _ _ B) as [B1 B2].
  destruct (count_encodeURIComponent _ _ U) as [U1 U2].
  rewrite !count_app, !count_repeat.
  rewrite !(proj1 (count_escapeHTML _)), !(proj2 (count_escapeHTML _)).
  destruct (count_numberToString (Int (ano vinil))) as [Y1 Y2].
  unfold numberToString in Y1, Y2. rewrite !Y1, !Y2.
  destruct isGradient; rewrite ?B1, ?B2, U1, U2; cbn [Spec.count];
    count_literals; lia.
Qed.

Lemma createVinilDetailsHTML_angle_brackets_witness :
  exists html,
    createVinilDetailsHTML Sample.script_title = Normal html
    /\ Spec.count 60 html = 114%nat.
Proof.
  eexists. split; [vm_compute; reflexivity |].
  etransitivity;
    [ refine (proj1 (createVinilDetailsHTML_angle_brackets Sample.script_title _ _));
      vm_compute; reflexivity
    | vm_compute; reflexivity ].
Defined.

(** X25: in the markup of a card the angle brackets that come from the
    record are those of the three values copied as they are: the title (into
    the [alt] attribute), the address of the cover when there is one (into
    [src]) and the colour, in lower case with hyphens for spaces (into the
    class of the badge).  The card has 19 opening and 19 closing brackets of
    its own, and two more of each when the medium is LP; the artist, the
    label and the year add none. *)
Theorem createVinilCard_angle_brackets
        (lower : jsstring -> jsstring) (vinil : Vinil) (card : Card) :
  createVinilCard lower vinil = Normal card ->
  forall c, c = 60%N \/ c = 62%N ->
  Spec.count c (innerHTML card)
  = (19 + (if JsString.eqb (midia vinil) (js "LP") then 2 else 0)
     + Spec.count c (album vinil)
     + Spec.count c (Spec.cover_text vinil)
     + Spec.count c (JsString.replace (lower (cor_prensagem vinil))
                                      (js " ") (js "-")))%nat.
Proof.
  unfold createVinilCard, Spec.cover_text.
  destruct (bgStyleOf (cor_prensagem vinil)) as [[bgStyle isGradient] | e] eqn:B;
    [| discriminate].
  destruct (count_bgStyle _ _ _ B) as [B1 B2].
  destruct (count_numberToString (Int (ano vinil))) as [Y1 Y2].
  unfold numberToString in Y1, Y2.
  assert (Hu : forall u, truthy u = false -> u = [])
    by (intros [| d u] H; [reflexivity | discriminate H]).
  destruct (capa vinil) as [u |] eqn:Hcapa;
    [destruct (truthy u) eqn:T;
     [destruct (startsWith u (js "/uploads")) | apply Hu in T; subst u] |];
    try (destruct (encodeURIComponent (substring0 (album vinil) 15))
           as [encoded |] eqn:U;
         [destruct (count_encodeURIComponent _ _ U) as [U1 U2] | discriminate]);
    intros [= <-] c [-> | ->]; cbn [innerHTML];
      rewrite !count_app, ?(proj1 (count_escapeHTML _)),
              ?(proj2 (count_escapeHTML _)), ?Y1, ?Y2;
      destruct isGradient; rewrite ?B1, ?B2, ?U1, ?U2;
      destruct (JsString.eqb (midia vinil) (js "LP"));
      change (Spec.count 60 []) with 0%nat; change (Spec.count 62 []) with 0%nat;
      count_literals; lia.
Qed.

Lemma createVinilCard_angle_brackets_witness :
  exists card,
    createVinilCard Sample.lower Sample.script_title = Normal card
    /\ Spec.count 60 (innerHTML card) = 22%nat.
Proof.
  eexists. split; [vm_compute; reflexivity |].
  etransitivity;
    [ refine (createVinilCard_angle_brackets
                Sample.lower Sample.script_title _ _ 60%N (or_introl eq_refl));
      vm_compute; reflexivity
    | vm_compute; reflexivity ].
Defined.

Local Transparent tpl js.
